(** * controllers/utils.js: query building, chunked search and enrichment

    A shallow embedding of [src/controllers/utils.js] and the properties
    of its chunked executor, its joins and its pregnancy calculators.

    Conventions of the embedding.
    - A JavaScript property that may be missing is an [option]; [None] is
      [undefined].
    - Counts such as [total_rows] are integers ([Z]); the double-precision
      rounding of JavaScript numbers above 2^53 is not modelled.
    - The node-style continuation [callback(err, result)] is the returned
      [Outcome]; the calls made to the search engine are recorded in the
      [World] threaded through every asynchronous function.
    - A moment is an instant together with a fixed UTC offset; daylight
      saving transitions of the host zone are not modelled. *)

From Stdlib Require Import ZArith List String Ascii Bool Arith Lia DecimalString.
Import ListNotations.

Local Open Scope string_scope.
Local Open Scope Z_scope.

(* ================================================================= *)
(** ** JavaScript values *)

Module JS.

(** A number-valued property: missing, an integer, or [NaN]. *)
Inductive Num : Type :=
| Undefined
| Int (z : Z)
| NaN.

(** [a + b] on number-valued properties: [undefined] coerces to [NaN],
    and [NaN] is absorbing. *)
Definition add (a b : Num) : Num :=
  match a, b with
  | Int x, Int y => Int (x + y)
  | _, _ => NaN
  end.

(** String coercion of a possibly missing string inside [+]. *)
Definition to_string (s : option string) : string :=
  match s with
  | Some v => v
  | None => "undefined"
  end.

(** [Array.prototype.join]: [undefined] elements become the empty
    string. *)
Definition join_item (s : option string) : string :=
  match s with
  | Some v => v
  | None => ""
  end.

Fixpoint join (sep : string) (items : list (option string)) : string :=
  match items with
  | [] => ""
  | [x] => join_item x
  | x :: rest => join_item x ++ sep ++ join sep rest
  end.

(** [===] on two possibly missing strings. *)
Definition strict_eq (a b : option string) : bool :=
  match a, b with
  | Some x, Some y => String.eqb x y
  | None, None => true
  | _, _ => false
  end.

(** [Array.prototype.slice(from, to)] for in-range, non-negative
    bounds. *)
Definition slice {A : Type} (items : list A) (from to : nat) : list A :=
  firstn (to - from) (skipn from items).

End JS.

(* ================================================================= *)
(** ** The moment.js operations the controller uses *)

Module Moment.

Definition ms_per_day : Z := 86400000.
Definition ms_per_week : Z := 604800000.

(** A moment: milliseconds since the epoch and the UTC offset (minutes
    east of Greenwich) in which it is displayed. *)
Record t : Type := mk { instant : Z; offset : Z }.

(** [moment(x)] for a timestamp [x] in a host whose zone is [host]
    minutes east of UTC. *)
Definition of_instant (host : Z) (x : Z) : t :=
  {| instant := x; offset := host |}.

(** [m.zone(0)]: same instant, displayed in UTC.  The receiver itself is
    changed. *)
Definition zone0 (m : t) : t :=
  {| instant := instant m; offset := 0 |}.

(** [m.add(n, 'days')] and [m.add(n, 'weeks')]. *)
Definition add_days (n : Z) (m : t) : t :=
  {| instant := instant m + n * ms_per_day; offset := offset m |}.

Definition add_weeks (n : Z) (m : t) : t :=
  {| instant := instant m + n * ms_per_week; offset := offset m |}.

(** [a.diff(b, 'weeks')] for two moments displayed in the same offset:
    whole weeks, truncated towards zero. *)
Definition diff_weeks (a b : t) : Z :=
  Z.quot (instant a - instant b) ms_per_week.

(** Day number (days since 1970-01-01) shown by the moment in its own
    offset, and day number in UTC. *)
Definition local_day (m : t) : Z :=
  (instant m + offset m * 60000) / ms_per_day.

Definition utc_day (m : t) : Z := instant m / ms_per_day.

(** Proleptic Gregorian calendar: day number to (year, month, day). *)
Definition civil_from_days (days : Z) : Z * Z * Z :=
  let z := days + 719468 in
  let era := z / 146097 in
  let doe := z - era * 146097 in
  let yoe := (doe - doe / 1460 + doe / 36524 - doe / 146096) / 365 in
  let y := yoe + era * 400 in
  let doy := doe - (365 * yoe + yoe / 4 - yoe / 100) in
  let mp := (5 * doy + 2) / 153 in
  let d := doy - (153 * mp + 2) / 5 + 1 in
  let m := if mp <? 10 then mp + 3 else mp - 9 in
  (if m <=? 2 then y + 1 else y, m, d).

(** (year, month, day) to day number. *)
Definition days_from_civil (y m d : Z) : Z :=
  let y' := if m <=? 2 then y - 1 else y in
  let era := y' / 400 in
  let yoe := y' - era * 400 in
  let doy := (153 * (if 2 <? m then m - 3 else m + 9) + 2) / 5 + d - 1 in
  let doe := yoe * 365 + yoe / 4 - yoe / 100 + doy in
  era * 146097 + doe - 719468.

(** Midnight UTC of a calendar date, as an instant. *)
Definition utc_midnight (y m d : Z) : Z :=
  days_from_civil y m d * ms_per_day.

Definition digits (n : Z) : string :=
  NilZero.string_of_uint (N.to_uint (Z.to_N (Z.abs n))).

Fixpoint zeros (n : nat) : string :=
  match n with
  | O => ""
  | S k => "0" ++ zeros k
  end.

(** moment's [leftZeroFill(number, targetLength)]. *)
Definition leftZeroFill (n : Z) (width : nat) : string :=
  let body := digits n in
  let padded := zeros (width - String.length body) ++ body in
  if n <? 0 then "-" ++ padded else padded.

(** The text of a day number under the pattern ['YYYY-MM-DD']. *)
Definition ymd (day : Z) : string :=
  let '(y, m, d) := civil_from_days day in
  leftZeroFill y 4 ++ "-" ++ leftZeroFill m 2 ++ "-" ++ leftZeroFill d 2.

(** [m.format('YYYY-MM-DD')]. *)
Definition format (m : t) : string := ymd (local_day m).

End Moment.

(* ================================================================= *)
(** ** Data model *)

(** A patient identifier as read from a [patient_id] property. *)
Definition PatientId : Type := option string.

(** An error value handed to a callback. *)
Definition Error : Type := string.

(** A stored document, as far as the controller reads it.  The two dates
    are timestamps in milliseconds. *)
Record Doc : Type := {
  form : option string;
  doc_patient_id : PatientId;
  reported_date : option Z;
  lmp_date : option Z
}.

(** A row of a search result; [doc] is filled in by the engine when the
    query asks for [include_docs]. *)
Record Row : Type := {
  id : string;
  doc : option Doc
}.

(** The entities handed to the joins: a patient identifier, the two
    attributes the joins write, and the attributes they never touch. *)
Record Entity : Type := {
  patient_id : PatientId;
  visits : option Z;
  high_risk : option bool;
  attributes : list (string * string)
}.

(** The options object of the exported queries. *)
Record Options : Type := {
  q : option string;
  sort : option string;
  include_docs : option bool;
  limit : option Z;
  patientIds : option (list PatientId);
  startDate : option Moment.t;
  endDate : option Moment.t;
  district : option string
}.

Definition no_options : Options :=
  {| q := None; sort := None; include_docs := None; limit := None;
     patientIds := None; startDate := None; endDate := None;
     district := None |}.

(** What [db.fti] receives: the index name and the query object. *)
Record QueryOptions : Type := {
  qo_q : option string;
  qo_sort : option string;
  qo_include_docs : option bool;
  qo_limit : option Z
}.

Record Call : Type := {
  index : string;
  query : QueryOptions
}.

(** What the engine hands back: a response object whose two properties
    may be missing. *)
Record RawResult : Type := {
  raw_total_rows : JS.Num;
  raw_rows : option (list Row)
}.

(** The two arguments of the engine's callback; a falsy [err] is
    [None], a falsy [result] is [None]. *)
Record EngineReply : Type := {
  reply_err : option Error;
  reply_result : option RawResult
}.

(** The engine: its reply to a call may depend on the calls before. *)
Definition Db : Type := list Call -> Call -> EngineReply.

(** A result as [fti] passes it on: the row sequence is always there. *)
Record Result : Type := {
  total_rows : JS.Num;
  rows : list Row
}.

(** What [getVisits] and [getHighRisk] pass to their callback: a result
    object, or a bare array. *)
Inductive Fetched : Type :=
| Array (items : list Row)
| Object (result : Result).

(** [fetched.rows]: a bare array has no such property. *)
Definition fetched_rows (fetched : Fetched) : option (list Row) :=
  match fetched with
  | Array _ => None
  | Object result => Some (rows result)
  end.

(** Module state and the record of engine calls. *)
Record World : Type := {
  luceneConditionalLimit : nat;
  calls : list Call
}.

Definition initial_world : World :=
  {| luceneConditionalLimit := 1000; calls := [] |}.

(** How an asynchronous function ends: [callback(null, v)],
    [callback(err)], an uncaught [TypeError], or a loop that never
    ends. *)
Inductive Outcome (A : Type) : Type :=
| Ok (v : A)
| Failed (err : Error)
| TypeError
| Diverged.

Arguments Ok {A} v.
Arguments Failed {A} err.
Arguments TypeError {A}.
Arguments Diverged {A}.

Definition M (A : Type) : Type := World -> World * Outcome A.

Definition ret {A : Type} (v : A) : M A := fun w => (w, Ok v).

Definition bind {A B : Type} (m : M A) (k : A -> M B) : M B :=
  fun w =>
    match m w with
    | (w', Ok v) => k v w'
    | (w', Failed err) => (w', Failed err)
    | (w', TypeError) => (w', TypeError)
    | (w', Diverged) => (w', Diverged)
    end.

Notation "x <- m ;; k" := (bind m (fun x => k))
  (at level 61, m at next level, right associativity).

(** [async.reduce]: the iterator runs on one item after the other; the
    first error ends the series and is the only thing passed on. *)
Fixpoint async_reduce {A B : Type} (arr : list A) (memo : B)
    (iterator : B -> A -> M B) : M B :=
  match arr with
  | [] => ret memo
  | x :: rest => v <- iterator memo x ;; async_reduce rest v iterator
  end.

Definition dquote : string := String (ascii_of_nat 34) EmptyString.

(** Truthiness of a possibly missing string. *)
Definition truthy (s : option string) : bool :=
  match s with
  | Some v => negb (String.eqb v "")
  | None => false
  end.

(** [_.pluck(objects, 'patient_id')]. *)
Definition pluck_patient_id (objects : list Entity) : list PatientId :=
  map patient_id objects.

(* ================================================================= *)
(** ** Formatting and chunking *)

(** [formatDate]: the text, and the moment as [zone(0)] leaves it. *)
Definition formatDate (date : Moment.t) : Moment.t * string :=
  let date' := Moment.zone0 date in
  (date', Moment.format date').

(** [formatDateRange]: the fragment, and [startDate] as the call leaves
    it ([endDate] is cloned before it is touched). *)
Definition formatDateRange (field : string) (startDate endDate : Moment.t)
    : Moment.t * string :=
  let '(startDate', start) := formatDate startDate in
  let '(_, end_) := formatDate (Moment.add_days 1 endDate) in
  (startDate', field ++ "<date>:[" ++ start ++ " TO " ++ end_ ++ "]").

(** The loop of [chunk]; [None] when [fuel] iterations do not reach the
    end of [items]. *)
Fixpoint chunk_loop {A : Type} (fuel : nat) (items : list A) (size i : nat)
    (chunks : list (list A)) : option (list (list A)) :=
  match fuel with
  | O => None
  | S fuel' =>
      if (i <? List.length items)%nat
      then chunk_loop fuel' items size (i + size)%nat
             (chunks ++ [JS.slice items i (i + size)%nat])%list
      else Some chunks
  end.

(** [chunk]: with a positive [size] the loop ends within
    [length items] iterations; [None] stands for a loop that never
    ends. *)
Definition chunk {A : Type} (items : list A) (size : nat)
    : option (list (list A)) :=
  chunk_loop (S (List.length items)) items size 0%nat [].

Definition ceil_div (n l : nat) : nat := ((n + l - 1) / l)%nat.

(* ================================================================= *)
(** ** The controller *)

Section Controller.

(** The search engine behind [db.fti]. *)
Variable db_fti : Db.

(** The table [config.get('anc_forms')]. *)
Variable anc_forms : string -> option string.

(** [moment()]: the current instant and the host's UTC offset. *)
Variable now_ms : Z.
Variable host_offset : Z.

Definition moment_now : Moment.t := Moment.of_instant host_offset now_ms.

(** [moment(x)]; a missing [x] gives the current time. *)
Definition moment_of (x : option Z) : Moment.t :=
  match x with
  | Some ms => Moment.of_instant host_offset ms
  | None => moment_now
  end.

Definition getFormCode (key : string) : option string := anc_forms key.

Definition record_call (c : Call) (w : World) : World :=
  {| luceneConditionalLimit := luceneConditionalLimit w;
     calls := (calls w ++ [c])%list |}.

Definition fti (options : Options) : M Result :=
  fun w =>
    let queryOptions :=
      {| qo_q := q options;
         qo_sort := sort options;
         qo_include_docs := include_docs options;
         qo_limit := limit options |} in
    let c := {| index := "data_records"; query := queryOptions |} in
    let reply := db_fti (calls w) c in
    let w' := record_call c w in
    match reply_err reply with
    | Some err => (w', Failed err)
    | None =>
        match reply_result reply with
        | None => (w', Ok {| total_rows := JS.Int 0; rows := [] |})
        | Some result =>
            (w', Ok {| total_rows := raw_total_rows result;
                       rows := match raw_rows result with
                               | Some r => r
                               | None => []
                               end |})
        end
    end.

(** The options of one chunk's query. *)
Definition chunk_options (options : Options) (ids : list PatientId)
    : Options :=
  {| q := Some (JS.to_string (q options) ++ " AND patient_id:("
                ++ JS.join " OR " ids ++ ")");
     sort := None;
     include_docs := include_docs options;
     limit := None;
     patientIds := None;
     startDate := None;
     endDate := None;
     district := None |}.

(** The iterator handed to [async.reduce]. *)
Definition merge_chunk (options : Options) (memo : Result)
    (ids : list PatientId) : M Result :=
  result <- fti (chunk_options options ids) ;;
  ret {| total_rows := JS.add (total_rows memo) (total_rows result);
         rows := (rows memo ++ rows result)%list |}.

Definition ftiWithPatientIds (options : Options) : M Result :=
  match patientIds options with
  | Some ids =>
      if (List.length ids =? 0)%nat
      then ret {| total_rows := JS.Int 0; rows := [] |}
      else
        fun w =>
          match chunk ids (luceneConditionalLimit w) with
          | None => (w, Diverged)
          | Some chunks =>
              async_reduce chunks {| total_rows := JS.Int 0; rows := [] |}
                (merge_chunk options) w
          end
  | None => fti options
  end.

(** [!options || !options.patientIds || !options.patientIds.length]. *)
Definition lacks_patient_ids (options : option Options) : bool :=
  match options with
  | None => true
  | Some o =>
      match patientIds o with
      | None => true
      | Some ids => (List.length ids =? 0)%nat
      end
  end.

Definition getHighRisk (options : option Options) : M Fetched :=
  match options with
  | Some o =>
      if lacks_patient_ids options
      then ret (Array [])
      else
        result <- ftiWithPatientIds
          {| q := Some ("form:" ++ JS.to_string (getFormCode "flag"));
             sort := sort o;
             include_docs := Some true;
             limit := limit o;
             patientIds := patientIds o;
             startDate := startDate o;
             endDate := endDate o;
             district := district o |} ;;
        ret (Object result)
  | None => ret (Array [])
  end.

(** [getDeliveries(options, callback)]. *)
Definition getDeliveries (options : Options) : M Result :=
  let q0 := "form:" ++ JS.to_string (getFormCode "delivery") in
  let q1 :=
    match startDate options, endDate options with
    | Some s, Some e =>
        q0 ++ " AND " ++ snd (formatDateRange "reported_date" s e)
    | _, _ => q0
    end in
  let q2 :=
    if truthy (district options)
    then q1 ++ " AND district:" ++ dquote
            ++ JS.to_string (district options) ++ dquote
    else q1 in
  ftiWithPatientIds
    {| q := Some q2;
       sort := sort options;
       include_docs := include_docs options;
       limit := limit options;
       patientIds := patientIds options;
       startDate := startDate options;
       endDate := endDate options;
       district := district options |}.

(** [getDeliveries(callback)]: the options default to [{}]. *)
Definition getDeliveries_callback_only : M Result :=
  getDeliveries no_options.

Definition getVisits (options : option Options) : M Fetched :=
  match options with
  | Some o =>
      if lacks_patient_ids options
      then ret (Array [])
      else
        let query0 := "form:" ++ JS.to_string (getFormCode "visit") in
        let query :=
          match startDate o with
          | Some s =>
              query0 ++ " AND "
                ++ snd (formatDateRange "reported_date" s
                          (match endDate o with
                           | Some e => e
                           | None => Moment.add_days 2 moment_now
                           end))
          | None => query0
          end in
        result <- ftiWithPatientIds
          {| q := Some query;
             sort := None;
             include_docs := Some true;
             limit := None;
             patientIds := patientIds o;
             startDate := None;
             endDate := None;
             district := None |} ;;
        ret (Object result)
  | None => ret (Array [])
  end.

(** *** Joins *)

(** The inner [_.some] of [rejectDeliveries]: does a delivery row carry
    the object's patient identifier?  [None] when a row without a
    document is read first. *)
Fixpoint some_delivery (deliveries : list Row) (object : Entity)
    : option bool :=
  match deliveries with
  | [] => Some false
  | delivery :: rest =>
      match doc delivery with
      | None => None
      | Some d =>
          if JS.strict_eq (doc_patient_id d) (patient_id object)
          then Some true
          else some_delivery rest object
      end
  end.

(** The outer [_.reject]: the objects for which [some_delivery] is
    false, in their order. *)
Fixpoint reject_delivered (deliveries : list Row) (objects : list Entity)
    : option (list Entity) :=
  match objects with
  | [] => Some []
  | object :: rest =>
      match some_delivery deliveries object with
      | None => None
      | Some delivered =>
          match reject_delivered deliveries rest with
          | None => None
          | Some kept => Some (if delivered then kept else object :: kept)
          end
      end
  end.

Definition rejectDeliveries (objects : list Entity) : M (list Entity) :=
  if (List.length objects =? 0)%nat
  then ret []
  else
    deliveries <- getDeliveries
      {| q := None; sort := None; include_docs := Some true; limit := None;
         patientIds := Some (pluck_patient_id objects);
         startDate := None; endDate := None; district := None |} ;;
    match reject_delivered (rows deliveries) objects with
    | Some undelivered => ret undelivered
    | None => fun w => (w, TypeError)
    end.

(** [object.high_risk = true]. *)
Definition set_high_risk (object : Entity) : Entity :=
  {| patient_id := patient_id object;
     visits := visits object;
     high_risk := Some true;
     attributes := attributes object |}.

(** The test of [_.findWhere(objects, { patient_id: pid })] on one
    object's [patient_id]: the object must have the property, and its
    value must be [===] to [pid].  An object without the property never
    matches, also when [pid] is itself missing. *)
Definition matches_patient_id (pid p : PatientId) : bool :=
  match p with
  | Some v => JS.strict_eq pid (Some v)
  | None => false
  end.

(** [_.findWhere(objects, { patient_id: pid })] followed by the
    assignment: the first object that has a [patient_id] [===] to [pid]
    is marked; nothing happens when there is none. *)
Fixpoint mark_first (pid : PatientId) (objects : list Entity)
    : list Entity :=
  match objects with
  | [] => []
  | object :: rest =>
      if matches_patient_id pid (patient_id object)
      then set_high_risk object :: rest
      else object :: mark_first pid rest
  end.

(** The [_.each] over the flag rows: the objects as the loop leaves
    them, and whether it stopped at a row without a document. *)
Fixpoint each_risk (risks : list Row) (objects : list Entity)
    : list Entity * bool :=
  match risks with
  | [] => (objects, false)
  | risk :: rest =>
      match doc risk with
      | None => (objects, true)
      | Some d => each_risk rest (mark_first (doc_patient_id d) objects)
      end
  end.

(** [injectRisk]: the world, the caller's objects as the call leaves
    them, and the outcome. *)
Definition injectRisk (objects : list Entity) (w : World)
    : World * list Entity * Outcome (list Entity) :=
  let patientIds := pluck_patient_id objects in
  match getHighRisk
          (Some {| q := None; sort := None; include_docs := None;
                   limit := None; patientIds := Some patientIds;
                   startDate := None; endDate := None;
                   district := None |}) w with
  | (w', Ok risks) =>
      match fetched_rows risks with
      | None => (w', objects, Ok objects)
      | Some flagged =>
          let '(objects', thrown) := each_risk flagged objects in
          (w', objects', if thrown then TypeError else Ok objects')
      end
  | (w', Failed err) => (w', objects, Failed err)
  | (w', TypeError) => (w', objects, TypeError)
  | (w', Diverged) => (w', objects, Diverged)
  end.

(** [setup(limit)]. *)
Definition setup (limit : nat) (w : World) : World :=
  {| luceneConditionalLimit := limit; calls := calls w |}.

End Controller.

(* ================================================================= *)
(** ** Pregnancy calculators *)

Module Weeks.
(** The object [getWeeksPregnant] returns. *)
Record t : Type := { number : Z; approximate : option bool }.
End Weeks.

Module EDD.
(** The object [getEDD] returns. *)
Record t : Type := { date : Moment.t; approximate : option bool }.
End EDD.

Section Calculators.

Variable now_ms : Z.
Variable host_offset : Z.

Definition getWeeksPregnant (d : Doc) : Weeks.t :=
  if JS.strict_eq (form d) (Some "R")
  then
    {| Weeks.number :=
         Moment.diff_weeks (moment_now now_ms host_offset)
           (moment_of now_ms host_offset (reported_date d));
       Weeks.approximate := Some true |}
  else
    {| Weeks.number :=
         Moment.diff_weeks (moment_now now_ms host_offset)
           (moment_of now_ms host_offset (lmp_date d)) - 2;
       Weeks.approximate := None |}.

Definition getEDD (d : Doc) : EDD.t :=
  if JS.strict_eq (form d) (Some "R")
  then
    {| EDD.date :=
         Moment.add_weeks 40 (moment_of now_ms host_offset (reported_date d));
       EDD.approximate := Some true |}
  else
    {| EDD.date :=
         Moment.add_weeks 42 (moment_of now_ms host_offset (lmp_date d));
       EDD.approximate := None |}.

End Calculators.

(* ================================================================= *)
(** ** Reference definitions used by the statements *)

(** The engine call that one chunk of identifiers gives rise to. *)
Definition chunk_call (options : Options) (ids : list PatientId) : Call :=
  {| index := "data_records";
     query :=
       {| qo_q := Some (JS.to_string (q options) ++ " AND patient_id:("
                        ++ JS.join " OR " ids ++ ")");
          qo_sort := None;
          qo_include_docs := include_docs options;
          qo_limit := None |} |}.

(** The per-chunk results: every chunk queried on its own through [fti],
    one after the other, and the results collected. *)
Fixpoint query_chunks (db_fti : Db) (options : Options)
    (chunks : list (list PatientId)) : M (list Result) :=
  match chunks with
  | [] => ret []
  | ids :: rest =>
      r <- fti db_fti (chunk_options options ids) ;;
      rs <- query_chunks db_fti options rest ;;
      ret (r :: rs)
  end.

(** The sum, from [0] and in chunk order, of the [total_rows] of a list
    of results. *)
Definition sum_total_rows (results : list Result) : JS.Num :=
  fold_left JS.add (map total_rows results) (JS.Int 0).

Definition concat_rows (results : list Result) : list Row :=
  List.concat (map rows results).

(** Does a row carry a document with this patient identifier? *)
Definition row_has_patient (pid : PatientId) (r : Row) : bool :=
  match doc r with
  | Some d => JS.strict_eq (doc_patient_id d) pid
  | None => false
  end.

Definition has_doc (r : Row) : Prop := doc r <> None.

(** Is the object at position [i] the first of [objects] with its
    patient identifier? *)
Definition first_of_patient (objects : list Entity) (i : nat) (o : Entity)
    : bool :=
  negb (existsb (fun o' => JS.strict_eq (patient_id o) (patient_id o'))
          (firstn i objects)).

(** Is the object [o] at position [i] the one a flag row picks: it has a
    patient identifier, some flag row carries that identifier, and no
    earlier object does? *)
Definition flagged_first (flagged : list Row) (objects : list Entity)
    (i : nat) (o : Entity) : bool :=
  match patient_id o with
  | Some _ =>
      existsb (row_has_patient (patient_id o)) flagged
      && first_of_patient objects i o
  | None => false
  end.

(** What a completed [injectRisk] leaves at position [i], where the
    input had [o]: [o] marked when a flag row carries its patient
    identifier and no earlier entity does, [o] itself otherwise. *)
Definition marked_by (flagged : list Row) (objects : list Entity)
    (i : nat) (o : Entity) : Entity :=
  if flagged_first flagged objects i o
  then set_high_risk o
  else o.

(** The only change [injectRisk] makes to an entity. *)
Definition same_or_marked (o o' : Entity) : Prop :=
  o' = o \/ o' = set_high_risk o.

(** The engine call [fti] makes for an options object. *)
Definition fti_call (options : Options) : Call :=
  {| index := "data_records";
     query := {| qo_q := q options; qo_sort := sort options;
                 qo_include_docs := include_docs options;
                 qo_limit := limit options |} |}.

(** The options [rejectDeliveries] and [injectRisk] build for their
    fetch. *)
Definition delivery_options (objects : list Entity) : Options :=
  {| q := None; sort := None; include_docs := Some true; limit := None;
     patientIds := Some (pluck_patient_id objects);
     startDate := None; endDate := None; district := None |}.

Definition risk_options (objects : list Entity) : Options :=
  {| q := None; sort := None; include_docs := None; limit := None;
     patientIds := Some (pluck_patient_id objects);
     startDate := None; endDate := None; district := None |}.

(* ================================================================= *)
(** ** Sample engines and data *)

(** An engine that answers its n-th call with the n-th reply of a
    script, and with a null result once the script is used up. *)
Definition scripted_db (script : list EngineReply) : Db :=
  fun history _ =>
    nth (List.length history) script
      {| reply_err := None; reply_result := None |}.

Definition reply_rows (total : Z) (rs : list Row) : EngineReply :=
  {| reply_err := None;
     reply_result :=
       Some {| raw_total_rows := JS.Int total; raw_rows := Some rs |} |}.

Definition reply_error (err : Error) : EngineReply :=
  {| reply_err := Some err; reply_result := None |}.

(** A non-null response with neither property. *)
Definition reply_bare : EngineReply :=
  {| reply_err := None;
     reply_result :=
       Some {| raw_total_rows := JS.Undefined; raw_rows := None |} |}.

Definition sample_forms (key : string) : option string :=
  if String.eqb key "delivery" then Some "D"
  else if String.eqb key "flag" then Some "F"
  else if String.eqb key "visit" then Some "V"
  else if String.eqb key "registration" then Some "R"
  else if String.eqb key "registrationLmp" then Some "P"
  else None.

Definition row_of (form_code pid : string) : Row :=
  {| id := pid;
     doc := Some {| form := Some form_code; doc_patient_id := Some pid;
                    reported_date := None; lmp_date := None |} |}.

Definition entity_of (pid : string) : Entity :=
  {| patient_id := Some pid; visits := None; high_risk := None;
     attributes := [] |}.

(** The module after [setup(n)], before any query. *)
Definition world_with_limit (n : nat) : World := setup n initial_world.

Definition ids_abc : list PatientId := [Some "a"; Some "b"; Some "c"].

Definition options_abc : Options :=
  {| q := Some "form:V"; sort := None; include_docs := Some true;
     limit := None; patientIds := Some ids_abc;
     startDate := None; endDate := None; district := None |}.

Definition options_no_ids : Options :=
  {| q := Some "form:V"; sort := None; include_docs := Some true;
     limit := None; patientIds := Some [];
     startDate := None; endDate := None; district := None |}.

Definition options_ab : Options :=
  {| q := Some "form:V"; sort := None; include_docs := Some true;
     limit := None; patientIds := Some [Some "a"; Some "b"];
     startDate := None; endDate := None; district := None |}.

(** Two replies, for the chunks [a, b] and [c]. *)
Definition script_abc : list EngineReply :=
  [reply_rows 5 [row_of "V" "a"; row_of "V" "b"];
   reply_rows 1 [row_of "V" "c"]].

(** The first chunk is answered, the second fails. *)
Definition script_fail : list EngineReply :=
  [reply_rows 5 [row_of "V" "a"]; reply_error "index error"].

(** Entities A, C, B, D and an engine whose deliveries are those of A
    (found by the chunk [A, C]) and of B (found by the chunk [B, D]). *)
Definition entities_ACBD : list Entity :=
  [entity_of "A"; entity_of "C"; entity_of "B"; entity_of "D"].

Definition script_delivered_AB : list EngineReply :=
  [reply_rows 1 [row_of "D" "A"]; reply_rows 1 [row_of "D" "B"]].

(** Entities A, B, A, the second with [high_risk] false, and two flags
    for A. *)
Definition entities_ABA : list Entity :=
  [entity_of "A";
   {| patient_id := Some "B"; visits := None; high_risk := Some false;
      attributes := [] |};
   entity_of "A"].

Definition entities_ABA_marked : list Entity :=
  [set_high_risk (entity_of "A");
   {| patient_id := Some "B"; visits := None; high_risk := Some false;
      attributes := [] |};
   entity_of "A"].


(** Records for the calculators. *)
Definition lmp_doc (lmp : Z) : Doc :=
  {| form := Some "P"; doc_patient_id := Some "a";
     reported_date := Some 0; lmp_date := Some lmp |}.


(** 2020-06-15T12:00:00Z. *)
Definition sample_now : Z := Moment.utc_midnight 2020 6 15 + 43200000.

(* ================================================================= *)
(** ** The remaining queries and joins *)

(** [m.subtract(n, 'weeks')]. *)
Definition subtract_weeks (n : Z) (m : Moment.t) : Moment.t :=
  {| Moment.instant := Moment.instant m - n * Moment.ms_per_week;
     Moment.offset := Moment.offset m |}.

(** [x || d] on a possibly missing number: [undefined] and [0] are
    falsy. *)
Definition or_default (x : option Z) (d : Z) : Z :=
  match x with
  | Some v => if v =? 0 then d else v
  | None => d
  end.

(** The options object of [getAllRegistrations] and
    [getBirthPatientIds]: the properties of [Options] and the two week
    counts. *)
Record WeekOptions : Type := {
  base : Options;
  maxWeeksPregnant : option Z;
  minWeeksPregnant : option Z
}.

(** The underscore.js functions the controller uses on patient
    identifiers and rows. *)
Module Underscore.

(** [_.contains(seen, value)]: some element is [===] to [value]. *)
Definition contains (seen : list PatientId) (value : PatientId) : bool :=
  existsb (JS.strict_eq value) seen.

(** One step of [_.uniq]: a value not seen before is kept. *)
Definition uniq_step (seen : list PatientId) (value : PatientId)
    : list PatientId :=
  if contains seen value then seen else (seen ++ [value])%list.

Definition uniq (values : list PatientId) : list PatientId :=
  fold_left uniq_step values [].

(** [_.union(a, b)]: the distinct values of [a] then [b], each at its
    first occurrence. *)
Definition union (a b : list PatientId) : list PatientId :=
  uniq (a ++ b)%list.

(** The object [_.countBy] builds: its own properties in the order they
    were created. *)
Definition Counts : Type := list (string * Z).

Fixpoint get_count (key : string) (result : Counts) : option Z :=
  match result with
  | [] => None
  | (k, n) :: rest => if String.eqb k key then Some n else get_count key rest
  end.

Fixpoint increment (key : string) (result : Counts) : Counts :=
  match result with
  | [] => []
  | (k, n) :: rest =>
      if String.eqb k key then (k, n + 1) :: rest
      else (k, n) :: increment key rest
  end.

(** [_.has(result, key) ? result[key]++ : result[key] = 1].  The name
    [__proto__] never becomes a property of [result]: the assignment
    reaches the accessor every object inherits, which drops a number. *)
Definition count_step (result : Counts) (key : string) : Counts :=
  if String.eqb key "__proto__" then result
  else
    match get_count key result with
    | Some _ => increment key result
    | None => (result ++ [(key, 1)])%list
    end.

End Underscore.

(** The property names every object inherits from [Object.prototype]. *)
Definition object_prototype_keys : list string :=
  ["constructor"; "toString"; "toLocaleString"; "valueOf";
   "hasOwnProperty"; "isPrototypeOf"; "propertyIsEnumerable";
   "__proto__"; "__defineGetter__"; "__defineSetter__";
   "__lookupGetter__"; "__lookupSetter__"].

Definition inherited_key (key : string) : bool :=
  existsb (String.eqb key) object_prototype_keys.

(** What [injectVisits] stores in [object.visits]: a count, or the
    member of [Object.prototype] that [count[key]] reads when [count]
    has no such property of its own. *)
Inductive VisitsValue : Type :=
| Counted (n : Z)
| Inherited (key : string).

(** An object after [injectVisits]: the object as it was, and what its
    [visits] attribute now holds. *)
Record Visited : Type := {
  object_before : Entity;
  visits_now : VisitsValue
}.

(** [collectPatientIds]: [None] when a row has no document. *)
Fixpoint collect_rows (records_rows : list Row) : option (list PatientId) :=
  match records_rows with
  | [] => Some []
  | row :: rest =>
      match doc row with
      | None => None
      | Some d =>
          match collect_rows rest with
          | None => None
          | Some ids => Some (doc_patient_id d :: ids)
          end
      end
  end.

Definition collectPatientIds (records : Result) : option (list PatientId) :=
  collect_rows (rows records).

(** The [_.countBy] of [injectVisits], keyed by [visit.doc.patient_id];
    [None] when a row has no document. *)
Fixpoint countBy_patient (visit_rows : list Row) (result : Underscore.Counts)
    : option Underscore.Counts :=
  match visit_rows with
  | [] => Some result
  | visit :: rest =>
      match doc visit with
      | None => None
      | Some d =>
          countBy_patient rest
            (Underscore.count_step result (JS.to_string (doc_patient_id d)))
      end
  end.

(** [count[object.patient_id] || 0]. *)
Definition lookup_count (count : Underscore.Counts) (pid : PatientId)
    : VisitsValue :=
  let key := JS.to_string pid in
  match Underscore.get_count key count with
  | Some n => Counted n
  | None => if inherited_key key then Inherited key else Counted 0
  end.

(** [options.startDate] as [getAllRegistrations] leaves it: the caller's
    moment is switched to UTC by [formatDateRange] when both dates are
    given. *)
Definition after_registrations (o : Options) : Options :=
  {| q := q o; sort := sort o; include_docs := include_docs o;
     limit := limit o; patientIds := patientIds o;
     startDate :=
       match startDate o, endDate o with
       | Some s, Some e => Some (fst (formatDateRange "expected_date" s e))
       | _, _ => startDate o
       end;
     endDate := endDate o; district := district o |}.

(** The options of [injectVisits]'s fetch. *)
Definition visit_options (objects : list Entity) : Options :=
  {| q := None; sort := None; include_docs := None; limit := None;
     patientIds := Some (pluck_patient_id objects);
     startDate := None; endDate := None; district := None |}.

Section MoreQueries.

Variable db_fti : Db.
Variable anc_forms : string -> option string.
Variable now_ms : Z.
Variable host_offset : Z.

Definition getAllRegistrations (options : WeekOptions) : M Result :=
  let o := base options in
  let '(startDate, endDate) :=
    match startDate o, endDate o with
    | Some s, Some e => (s, e)
    | _, _ =>
        (subtract_weeks (or_default (maxWeeksPregnant options) 42)
           (moment_now now_ms host_offset),
         subtract_weeks (or_default (minWeeksPregnant options) 0)
           (moment_now now_ms host_offset))
    end in
  let query :=
    "errors<int>:0 "
    ++ "AND form:(" ++ dquote
    ++ JS.to_string (getFormCode anc_forms "registration")
    ++ dquote ++ " OR " ++ dquote
    ++ JS.to_string (getFormCode anc_forms "registrationLmp")
    ++ dquote ++ ") "
    ++ "AND " ++ snd (formatDateRange "expected_date" startDate endDate) in
  let query' :=
    if truthy (district o)
    then query ++ " AND district:" ++ dquote
           ++ JS.to_string (district o) ++ dquote
    else query in
  ftiWithPatientIds db_fti
    {| q := Some query'; sort := None; include_docs := Some true;
       limit := None; patientIds := patientIds o;
       startDate := None; endDate := None; district := None |}.

(** The options of [getBirthPatientIds] once it has set the two week
    counts. *)
Definition birth_registration_options (options : WeekOptions) : WeekOptions :=
  {| base := base options;
     maxWeeksPregnant := Some (or_default (maxWeeksPregnant options) 10000);
     minWeeksPregnant := Some 42 |}.

(** The same object as [getDeliveries] receives it, [include_docs]
    set. *)
Definition birth_delivery_options (options : WeekOptions) : Options :=
  let o := after_registrations (base options) in
  {| q := q o; sort := sort o; include_docs := Some true;
     limit := limit o; patientIds := patientIds o;
     startDate := startDate o; endDate := endDate o;
     district := district o |}.

Definition getBirthPatientIds (options : WeekOptions)
    : M (list PatientId) :=
  registrations <- getAllRegistrations (birth_registration_options options) ;;
  deliveries <- getDeliveries db_fti anc_forms
                  (birth_delivery_options options) ;;
  match collectPatientIds deliveries, collectPatientIds registrations with
  | Some d, Some r => ret (Underscore.union d r)
  | _, _ => fun w => (w, TypeError)
  end.

Definition injectVisits (objects : list Entity) : M (list Visited) :=
  let patientIds := pluck_patient_id objects in
  visits <- getVisits db_fti anc_forms now_ms host_offset
              (Some {| q := None; sort := None; include_docs := None;
                       limit := None; patientIds := Some patientIds;
                       startDate := None; endDate := None;
                       district := None |}) ;;
  match
    match fetched_rows visits with
    | Some visit_rows => countBy_patient visit_rows []
    | None => Some []
    end
  with
  | Some count =>
      ret (map (fun object =>
                  {| object_before := object;
                     visits_now := lookup_count count (patient_id object) |})
             objects)
  | None => fun w => (w, TypeError)
  end.

End MoreQueries.

(** The number of rows whose document's patient identifier names the
    property [key]. *)
Definition row_key (r : Row) : string :=
  match doc r with
  | Some d => JS.to_string (doc_patient_id d)
  | None => ""
  end.

Definition count_rows (key : string) (rs : list Row) : Z :=
  Z.of_nat (List.length (filter (fun r => String.eqb (row_key r) key) rs)).

(** The patient identifier a row's document carries. *)
Definition row_patient_id (r : Row) : PatientId :=
  match doc r with
  | Some d => doc_patient_id d
  | None => None
  end.

(** Sample data for the remaining queries. *)
Definition week_options_none : WeekOptions :=
  {| base := no_options; maxWeeksPregnant := None;
     minWeeksPregnant := None |}.

Definition week_options_ab : WeekOptions :=
  {| base := options_ab; maxWeeksPregnant := Some 0;
     minWeeksPregnant := Some 7 |}.

Definition options_lone_start : Options :=
  {| q := None; sort := None; include_docs := None; limit := None;
     patientIds := None;
     startDate := Some (Moment.of_instant 0 (Moment.utc_midnight 2020 1 1));
     endDate := None; district := None |}.


Definition script_visits : list EngineReply :=
  [reply_rows 3 [row_of "V" "a"; row_of "V" "c"; row_of "V" "a"]].

Definition script_births : list EngineReply :=
  [reply_rows 2 [row_of "R" "a"; row_of "P" "b"];
   reply_rows 2 [row_of "D" "b"; row_of "D" "c"]].

Definition script_error_first : list EngineReply :=
  [reply_error "index error"].

(** The same two flags for A, fetched twice. *)
Definition script_flag_A_twice : list EngineReply :=
  [reply_rows 2 [row_of "F" "A"; row_of "F" "A"];
   reply_rows 2 [row_of "F" "A"; row_of "F" "A"]].

Definition world_flagged_once : World :=
  fst (fst (injectRisk (scripted_db script_flag_A_twice) sample_forms
              entities_ABA initial_world)).

Definition world_flagged_twice : World :=
  fst (fst (injectRisk (scripted_db script_flag_A_twice) sample_forms
              entities_ABA_marked world_flagged_once)).


Definition entities_abc : list Entity :=
  [entity_of "a"; entity_of "b"; entity_of "c"].

Definition entity_constructor : Entity := entity_of "constructor".

(** An entity and a flag document that both lack [patient_id]. *)
Definition entity_without_id : Entity :=
  {| patient_id := None; visits := None; high_risk := None;
     attributes := [] |}.

Definition script_flag_without_id : list EngineReply :=
  [reply_rows 1
     [{| id := "f";
         doc := Some {| form := Some "F"; doc_patient_id := None;
                        reported_date := None; lmp_date := None |} |}]].

(* ================================================================= *)
(** ** Sanity checks of the calendar *)

Example ymd_epoch : Moment.ymd 0 = "1970-01-01".
Proof. reflexivity. Qed.

Example ymd_leap_day :
  Moment.ymd (Moment.days_from_civil 2020 2 29) = "2020-02-29".
Proof. vm_compute. reflexivity. Qed.

Example oct_21_is_42_weeks_after_jan_1 :
  Moment.days_from_civil 2020 10 21 - Moment.days_from_civil 2020 1 1 = 42 * 7
  /\ Moment.days_from_civil 2020 10 28 - Moment.days_from_civil 2020 1 1
     = 43 * 7
  /\ Moment.civil_from_days (Moment.days_from_civil 2020 1 1 + 42 * 7)
     = (2020, 10, 21).
Proof. vm_compute. repeat split. Qed.

Example ymd_year_end :
  Moment.ymd (Moment.days_from_civil 1999 12 31 + 1) = "2000-01-01".
Proof. vm_compute. reflexivity. Qed.

(* ================================================================= *)
(** ** Chunking *)

Section ChunkFacts.

Context {A : Type}.

Local Open Scope nat_scope.

Lemma ceil_div_zero (size : nat) : 0 < size -> ceil_div 0 size = 0.
Proof.
  intros Hs. unfold ceil_div. apply Nat.div_small. lia.
Qed.

Lemma ceil_div_step (m size : nat) :
  0 < size -> 0 < m -> ceil_div m size = S (ceil_div (m - size) size).
Proof.
  intros Hs Hm. unfold ceil_div.
  destruct (Nat.le_gt_cases size m) as [Hle | Hlt].
  - replace (m + size - 1) with ((m - size + size - 1) + 1 * size) by lia.
    rewrite Nat.div_add by lia. lia.
  - replace (m - size) with 0 by lia.
    rewrite (Nat.div_small (0 + size - 1)) by lia.
    symmetry. apply (Nat.div_unique _ _ 1 (m - 1)); lia.
Qed.

(** [ceil_div n size] is the least number of blocks of [size] that
    cover [n]. *)
Lemma ceil_div_spec (n size : nat) :
  0 < size ->
  n <= ceil_div n size * size /\ ceil_div n size * size < n + size.
Proof.
  intros Hs. unfold ceil_div.
  pose proof (Nat.div_mod_eq (n + size - 1) size) as E.
  pose proof (Nat.mod_upper_bound (n + size - 1) size) as B.
  nia.
Qed.

Lemma slice_length (items : list A) (i size : nat) :
  i < List.length items -> 0 < size ->
  0 < List.length (JS.slice items i (i + size)) <= size.
Proof.
  intros Hi Hs. unfold JS.slice.
  rewrite List.length_firstn, List.length_skipn. lia.
Qed.

Lemma slice_then_rest (items : list A) (i size : nat) :
  (JS.slice items i (i + size) ++ skipn (i + size) items)%list
  = skipn i items.
Proof.
  unfold JS.slice. replace (i + size - i) with size by lia.
  rewrite <- (firstn_skipn size (skipn i items)) at 2.
  f_equal. rewrite skipn_skipn. f_equal. lia.
Qed.

(** What the loop of [chunk] computes from position [i] on, given
    enough fuel. *)
Lemma chunk_loop_spec (items : list A) (size : nat) :
  0 < size ->
  forall fuel i acc,
    List.length items - i < fuel ->
    exists cs,
      chunk_loop fuel items size i acc = Some (acc ++ cs)%list /\
      List.concat cs = skipn i items /\
      Forall (fun c => 0 < List.length c <= size) cs /\
      List.length cs = ceil_div (List.length items - i) size /\
      (forall k, k < List.length cs ->
         nth k cs [] = JS.slice items (i + k * size) (i + k * size + size)).
Proof.
  intros Hs. induction fuel as [| fuel IH]; intros i acc Hfuel.
  - lia.
  - simpl. destruct (Nat.ltb_spec i (List.length items)) as [Hlt | Hge].
    + destruct (IH (i + size) (acc ++ [JS.slice items i (i + size)])%list)
        as (cs & Hrun & Hcat & Hall & Hlen & Hnth); [lia |].
      exists (JS.slice items i (i + size) :: cs). repeat split.
      * rewrite Hrun. rewrite <- app_assoc. reflexivity.
      * simpl. rewrite Hcat. apply slice_then_rest.
      * constructor; [apply slice_length; assumption | exact Hall].
      * simpl. rewrite Hlen.
        rewrite (ceil_div_step (List.length items - i) size) by lia.
        do 2 f_equal. lia.
      * intros [| k] Hk.
        -- simpl. rewrite Nat.add_0_r. reflexivity.
        -- simpl in Hk. simpl nth. rewrite Hnth by lia.
           f_equal; lia.
    + exists []. repeat split.
      * rewrite app_nil_r. reflexivity.
      * simpl. symmetry. apply skipn_all2. lia.
      * constructor.
      * simpl. replace (List.length items - i) with 0 by lia.
        symmetry. apply ceil_div_zero. assumption.
      * simpl. intros k Hk. lia.
Qed.

(** With a positive size [chunk] returns: the chunks are the
    consecutive slices of [items]. *)
Lemma chunk_spec (items : list A) (size : nat) :
  0 < size ->
  exists cs,
    chunk items size = Some cs /\
    List.concat cs = items /\
    Forall (fun c => 0 < List.length c <= size) cs /\
    List.length cs = ceil_div (List.length items) size /\
    (forall k, k < List.length cs ->
       nth k cs [] = JS.slice items (k * size) (k * size + size)).
Proof.
  intros Hs.
  destruct (chunk_loop_spec items size Hs (S (List.length items)) 0 [])
    as (cs & Hrun & Hcat & Hall & Hlen & Hnth); [lia |].
  exists cs. repeat split; try assumption.
  - rewrite Nat.sub_0_r in Hlen. exact Hlen.
Qed.

(** With size [0] and something to chunk, the loop never gets past
    position [0], whatever the fuel. *)
Lemma chunk_loop_zero_size (items : list A) :
  items <> [] ->
  forall fuel acc, chunk_loop fuel items 0 0 acc = None.
Proof.
  intros Hne. induction fuel as [| fuel IH]; intros acc; simpl.
  - reflexivity.
  - destruct items as [| x xs]; [contradiction |]. simpl. apply IH.
Qed.

End ChunkFacts.

(** [setup] changes the limit and nothing else. *)
Lemma setup_limit (n : nat) (w : World) :
  luceneConditionalLimit (setup n w) = n /\ calls (setup n w) = calls w.
Proof. split; reflexivity. Qed.

(* ================================================================= *)
(** ** The search wrapper and the chunked executor *)

Section ExecutorFacts.

Variable db_fti : Db.

(** Every [fti] makes exactly one engine call. *)
Lemma fti_world (options : Options) (w : World) :
  fst (fti db_fti options w)
  = record_call
      {| index := "data_records";
         query := {| qo_q := q options; qo_sort := sort options;
                     qo_include_docs := include_docs options;
                     qo_limit := limit options |} |} w.
Proof.
  unfold fti.
  destruct (reply_err _); [reflexivity |].
  destruct (reply_result _); reflexivity.
Qed.

Lemma fti_chunk_world (options : Options) (ids : list PatientId)
    (w : World) :
  fst (fti db_fti (chunk_options options ids) w)
  = record_call (chunk_call options ids) w.
Proof. rewrite fti_world. reflexivity. Qed.

(** A failing engine call is passed on as it is. *)
Lemma fti_failed (options : Options) (ids : list PatientId) (w : World)
    (err : Error) :
  reply_err (db_fti (calls w) (chunk_call options ids)) = Some err ->
  fti db_fti (chunk_options options ids) w
  = (record_call (chunk_call options ids) w, Failed err).
Proof.
  intros H. unfold fti. unfold chunk_call in H. simpl in *.
  rewrite H. reflexivity.
Qed.

(** The fold of [async.reduce] over chunks that all answer. *)
Lemma async_reduce_merge (options : Options) :
  forall chunks memo w w' results,
    query_chunks db_fti options chunks w = (w', Ok results) ->
    async_reduce chunks memo (merge_chunk db_fti options) w
    = (w', Ok {| total_rows :=
                   fold_left JS.add (map total_rows results)
                     (total_rows memo);
                 rows := (rows memo ++ concat_rows results)%list |})
    /\ calls w' = (calls w ++ map (chunk_call options) chunks)%list.
Proof.
  induction chunks as [| ids rest IH]; intros memo w w' results H.
  - simpl in H. unfold ret in H. inversion H; subst. simpl.
    unfold ret, concat_rows. simpl. rewrite !app_nil_r.
    destruct memo; auto.
  - simpl in H. unfold bind at 1 in H.
    pose proof (fti_chunk_world options ids w) as Hw.
    destruct (fti db_fti (chunk_options options ids) w)
      as [w1 [r | e | |]] eqn:Efti; try discriminate.
    unfold bind in H.
    destruct (query_chunks db_fti options rest w1)
      as [w2 [rs | e | |]] eqn:Erest; try discriminate.
    unfold ret in H. inversion H; subst. clear H.
    simpl in Hw. subst w1.
    simpl async_reduce. unfold bind at 1. unfold merge_chunk at 1.
    unfold bind at 1. rewrite Efti. unfold ret at 1.
    destruct (IH {| total_rows := JS.add (total_rows memo) (total_rows r);
                    rows := (rows memo ++ rows r)%list |}
                _ _ _ Erest) as [Hrun Hcalls].
    split.
    + rewrite Hrun. simpl. unfold concat_rows. simpl.
      rewrite <- app_assoc. reflexivity.
    + rewrite Hcalls. simpl. rewrite <- app_assoc. reflexivity.
Qed.

(** The fold stops at the first chunk whose engine call fails. *)
Lemma async_reduce_failed (options : Options) :
  forall before ids after memo w w1 results err,
    query_chunks db_fti options before w = (w1, Ok results) ->
    reply_err (db_fti (calls w1) (chunk_call options ids)) = Some err ->
    async_reduce (before ++ ids :: after) memo (merge_chunk db_fti options) w
    = (record_call (chunk_call options ids) w1, Failed err).
Proof.
  induction before as [| c before IH];
    intros ids after memo w w1 results err H Herr.
  - simpl in H. unfold ret in H. inversion H; subst.
    simpl. unfold bind, merge_chunk, bind.
    rewrite (fti_failed _ _ _ _ Herr). reflexivity.
  - simpl in H. unfold bind at 1 in H.
    destruct (fti db_fti (chunk_options options c) w)
      as [w0 [r | e | |]] eqn:Efti; try discriminate.
    unfold bind in H.
    destruct (query_chunks db_fti options before w0)
      as [w2 [rs | e | |]] eqn:Erest; try discriminate.
    unfold ret in H. inversion H; subst. clear H.
    simpl. unfold bind at 1. unfold merge_chunk at 1.
    unfold bind at 1. rewrite Efti. unfold ret at 1.
    eapply IH; eassumption.
Qed.

Lemma query_chunks_calls (options : Options) :
  forall chunks w w' results,
    query_chunks db_fti options chunks w = (w', Ok results) ->
    calls w' = (calls w ++ map (chunk_call options) chunks)%list
    /\ List.length results = List.length chunks.
Proof.
  induction chunks as [| ids rest IH]; intros w w' results H.
  - simpl in H. unfold ret in H. inversion H; subst. simpl.
    rewrite app_nil_r. auto.
  - simpl in H. unfold bind at 1 in H.
    pose proof (fti_chunk_world options ids w) as Hw.
    destruct (fti db_fti (chunk_options options ids) w)
      as [w1 [r | e | |]] eqn:Efti; try discriminate.
    unfold bind in H.
    destruct (query_chunks db_fti options rest w1)
      as [w2 [rs | e | |]] eqn:Erest; try discriminate.
    unfold ret in H. inversion H; subst. clear H.
    simpl in Hw. subst w1.
    destruct (IH _ _ _ Erest) as [Hc Hl]. split.
    + rewrite Hc. simpl. rewrite <- app_assoc. reflexivity.
    + simpl. rewrite Hl. reflexivity.
Qed.

End ExecutorFacts.

(** With a limit of [0] and identifiers to look for, the loop of [chunk]
    never ends and no query is made. *)
Lemma ftiWithPatientIds_zero_limit
    (db_fti : Db) (options : Options) (ids : list PatientId) (w : World) :
  patientIds options = Some ids ->
  ids <> [] ->
  luceneConditionalLimit w = 0%nat ->
  ftiWithPatientIds db_fti options w = (w, Diverged).
Proof.
  intros Hids Hne Hl. unfold ftiWithPatientIds. rewrite Hids.
  destruct ids as [| x xs]; [contradiction |].
  change (List.length (x :: xs) =? 0)%nat with false. cbv beta iota.
  rewrite Hl. unfold chunk.
  rewrite (chunk_loop_zero_size (x :: xs) Hne). reflexivity.
Qed.

(** The JavaScript sum of integer totals is their integer sum. *)
Lemma fold_add_ints (zs : list Z) (z0 : Z) :
  fold_left JS.add (map JS.Int zs) (JS.Int z0)
  = JS.Int (fold_left Z.add zs z0).
Proof.
  revert z0. induction zs as [| z zs IH]; intros z0; simpl.
  - reflexivity.
  - apply IH.
Qed.

Lemma sum_total_rows_ints (results : list Result) (zs : list Z) :
  map total_rows results = map JS.Int zs ->
  sum_total_rows results = JS.Int (fold_left Z.add zs 0).
Proof.
  intros H. unfold sum_total_rows. rewrite H. apply fold_add_ints.
Qed.

(** C1. With [N > 0] identifiers and a limit [L > 0], [chunk] returns
    [ceil(N / L)] chunks; they are the consecutive slices of the
    identifier sequence (so their concatenation is the sequence itself),
    each of at most [L] identifiers.  When every chunk's query answers,
    [ftiWithPatientIds] makes exactly these queries, in chunk order, and
    calls back with the per-chunk rows concatenated in chunk order and
    with the JavaScript sum of the per-chunk [total_rows], which is the
    integer sum when all of them are integers. *)
Theorem ftiWithPatientIds_chunks_and_merges
    (db_fti : Db) (options : Options) (ids : list PatientId) (w : World) :
  patientIds options = Some ids ->
  (0 < List.length ids)%nat ->
  (0 < luceneConditionalLimit w)%nat ->
  exists chunks,
    chunk ids (luceneConditionalLimit w) = Some chunks /\
    List.length chunks
    = ceil_div (List.length ids) (luceneConditionalLimit w) /\
    List.concat chunks = ids /\
    Forall (fun c => (List.length c <= luceneConditionalLimit w)%nat)
      chunks /\
    (forall k, (k < List.length chunks)%nat ->
       nth k chunks []
       = JS.slice ids (k * luceneConditionalLimit w)
           (k * luceneConditionalLimit w + luceneConditionalLimit w)) /\
    forall results w',
      query_chunks db_fti options chunks w = (w', Ok results) ->
      ftiWithPatientIds db_fti options w
      = (w', Ok {| total_rows := sum_total_rows results;
                   rows := concat_rows results |}) /\
      calls w' = (calls w ++ map (chunk_call options) chunks)%list /\
      (forall zs, map total_rows results = map JS.Int zs ->
         sum_total_rows results = JS.Int (fold_left Z.add zs 0)).
Proof.
  intros Hids Hn Hl.
  destruct (chunk_spec ids (luceneConditionalLimit w) Hl)
    as (chunks & Hchunk & Hcat & Hall & Hlen & Hnth).
  exists chunks. repeat split; try assumption.
  - eapply Forall_impl; [| exact Hall]. simpl. intros c Hc. lia.
  - unfold ftiWithPatientIds. rewrite Hids.
    destruct (Nat.eqb_spec (List.length ids) 0) as [E | _]; [lia |].
    rewrite Hchunk.
    destruct (async_reduce_merge db_fti options chunks
                {| total_rows := JS.Int 0; rows := [] |} w w' results H)
      as [Hrun _].
    exact Hrun.
  - eapply query_chunks_calls. eassumption.
  - apply sum_total_rows_ints.
Qed.

(** C4. A present but empty identifier sequence ends with
    [{total_rows: 0, rows: []}] and leaves the record of engine calls
    as it was. *)
Theorem ftiWithPatientIds_empty_ids
    (db_fti : Db) (options : Options) (w : World) :
  patientIds options = Some [] ->
  ftiWithPatientIds db_fti options w
  = (w, Ok {| total_rows := JS.Int 0; rows := [] |}).
Proof.
  intros H. unfold ftiWithPatientIds. rewrite H. reflexivity.
Qed.

(** C6. When the chunks before some chunk all answer and that chunk's
    engine call fails with [err], [ftiWithPatientIds] calls back with
    [err] alone; the engine has then been called once for each chunk up
    to and including the failing one and never again: the chunks after
    it are not queried and nothing is retried. *)
Theorem ftiWithPatientIds_stops_at_failure
    (db_fti : Db) (options : Options) (ids : list PatientId) (w w1 : World)
    (before after : list (list PatientId)) (failing : list PatientId)
    (results : list Result) (err : Error) :
  patientIds options = Some ids ->
  (0 < List.length ids)%nat ->
  chunk ids (luceneConditionalLimit w)
  = Some (before ++ failing :: after)%list ->
  query_chunks db_fti options before w = (w1, Ok results) ->
  reply_err (db_fti (calls w1) (chunk_call options failing)) = Some err ->
  ftiWithPatientIds db_fti options w
  = (record_call (chunk_call options failing) w1, Failed err)
  /\ calls (record_call (chunk_call options failing) w1)
     = (calls w ++ map (chunk_call options) (before ++ [failing]))%list.
Proof.
  intros Hids Hn Hchunk Hbefore Herr. split.
  - unfold ftiWithPatientIds. rewrite Hids.
    destruct (Nat.eqb_spec (List.length ids) 0) as [E | _]; [lia |].
    rewrite Hchunk.
    eapply async_reduce_failed; eassumption.
  - destruct (query_chunks_calls db_fti options _ _ _ _ Hbefore) as [Hc _].
    simpl. rewrite Hc, map_app, app_assoc. reflexivity.
Qed.

(* ================================================================= *)
(** ** Joins *)

Lemma strict_eq_true (a b : PatientId) :
  JS.strict_eq a b = true <-> a = b.
Proof.
  destruct a as [x |], b as [y |]; simpl; split; intros H;
    try discriminate; try reflexivity.
  - apply String.eqb_eq in H. congruence.
  - inversion H; subst. apply String.eqb_refl.
Qed.

Lemma some_delivery_with_docs (deliveries : list Row) (object : Entity) :
  Forall has_doc deliveries ->
  some_delivery deliveries object
  = Some (existsb (row_has_patient (patient_id object)) deliveries).
Proof.
  induction 1 as [| r rest Hr _ IH]; simpl.
  - reflexivity.
  - unfold has_doc in Hr. unfold row_has_patient at 1.
    destruct (doc r) as [d |]; [| contradiction].
    destruct (JS.strict_eq (doc_patient_id d) (patient_id object)).
    + reflexivity.
    + exact IH.
Qed.

Lemma reject_delivered_with_docs (deliveries : list Row)
    (objects : list Entity) :
  Forall has_doc deliveries ->
  reject_delivered deliveries objects
  = Some (filter
            (fun o => negb (existsb (row_has_patient (patient_id o))
                              deliveries))
            objects).
Proof.
  intros Hdocs. induction objects as [| o rest IH]; simpl.
  - reflexivity.
  - rewrite (some_delivery_with_docs _ _ Hdocs), IH.
    destruct (existsb _ deliveries); reflexivity.
Qed.

(** C7. [rejectDeliveries] on no entities calls back with the empty
    sequence and makes no query.  Otherwise, when the deliveries fetched
    for the entities' identifiers carry their documents, it calls back
    with the entities whose patient identifier is on none of those
    deliveries, in their original order.  With entities A, C, B, D, a
    chunk limit of 2 and deliveries for A and B, that is C, D. *)
Theorem rejectDeliveries_keeps_undelivered
    (db_fti : Db) (anc_forms : string -> option string) (w : World) :
  rejectDeliveries db_fti anc_forms [] w = (w, Ok []) /\
  (forall objects w' deliveries,
     getDeliveries db_fti anc_forms (delivery_options objects) w
     = (w', Ok deliveries) ->
     Forall has_doc (rows deliveries) ->
     rejectDeliveries db_fti anc_forms objects w
     = (w', Ok (filter
                  (fun o => negb (existsb (row_has_patient (patient_id o))
                                    (rows deliveries)))
                  objects))) /\
  snd (rejectDeliveries (scripted_db script_delivered_AB) sample_forms
         entities_ACBD (world_with_limit 2))
  = Ok [entity_of "C"; entity_of "D"].
Proof.
  split; [reflexivity |]. split; [| reflexivity].
  intros objects w' deliveries Hfetch Hdocs.
  destruct objects as [| o rest].
  - unfold getDeliveries, delivery_options in Hfetch. simpl in Hfetch.
    unfold ftiWithPatientIds in Hfetch. simpl in Hfetch.
    unfold ret in Hfetch. inversion Hfetch; subst. reflexivity.
  - unfold rejectDeliveries.
    change (List.length (o :: rest) =? 0)%nat with false. cbv iota.
    unfold bind. fold (delivery_options (o :: rest)). rewrite Hfetch.
    rewrite (reject_delivered_with_docs _ _ Hdocs). reflexivity.
Qed.


Lemma mark_first_same_or_marked (pid : PatientId) :
  forall objects current,
    Forall2 same_or_marked objects current ->
    Forall2 same_or_marked objects (mark_first pid current).
Proof.
  induction 1 as [| o c objects current Hoc Hrest IH]; simpl.
  - constructor.
  - destruct (matches_patient_id pid (patient_id c)).
    + constructor; [| assumption].
      destruct Hoc as [-> | ->]; right; reflexivity.
    + constructor; assumption.
Qed.

Lemma each_risk_same_or_marked :
  forall flagged objects current,
    Forall2 same_or_marked objects current ->
    Forall2 same_or_marked objects (fst (each_risk flagged current)).
Proof.
  induction flagged as [| r rest IH]; intros objects current H; simpl.
  - exact H.
  - destruct (doc r) as [d |]; simpl.
    + apply IH. apply mark_first_same_or_marked. exact H.
    + exact H.
Qed.

Lemma same_or_marked_refl (objects : list Entity) :
  Forall2 same_or_marked objects objects.
Proof.
  induction objects; constructor; [left; reflexivity | assumption].
Qed.

(** Position by position, what [mark_first] does. *)
Lemma mark_first_nth (pid : PatientId) :
  forall current i,
    nth_error (mark_first pid current) i
    = match nth_error current i with
      | Some c =>
          Some (if matches_patient_id pid (patient_id c)
                   && negb (existsb
                              (fun c' =>
                                 matches_patient_id pid (patient_id c'))
                              (firstn i current))
                then set_high_risk c
                else c)
      | None => None
      end.
Proof.
  induction current as [| c rest IH]; intros i; simpl.
  - destruct i; reflexivity.
  - destruct (matches_patient_id pid (patient_id c)) eqn:E.
    + destruct i as [| i]; simpl.
      * rewrite E. reflexivity.
      * rewrite E. simpl.
        destruct (nth_error rest i); [| reflexivity].
        rewrite andb_false_r. reflexivity.
    + destruct i as [| i]; simpl.
      * rewrite E. reflexivity.
      * rewrite E. simpl. apply IH.
Qed.

Lemma marked_by_nil (objects : list Entity) (i : nat) (o : Entity) :
  marked_by [] objects i o = o.
Proof.
  unfold marked_by, flagged_first. destruct (patient_id o); reflexivity.
Qed.

Lemma marked_by_fields (flagged : list Row) (objects : list Entity)
    (i : nat) (o : Entity) :
  patient_id (marked_by flagged objects i o) = patient_id o /\
  visits (marked_by flagged objects i o) = visits o /\
  attributes (marked_by flagged objects i o) = attributes o /\
  high_risk (marked_by flagged objects i o)
  = if flagged_first flagged objects i o then Some true else high_risk o.
Proof.
  unfold marked_by. destruct (flagged_first flagged objects i o);
    simpl; auto.
Qed.

Lemma existsb_pointwise {A : Type} (f g : A -> bool) (l : list A) :
  (forall a, f a = g a) -> existsb f l = existsb g l.
Proof.
  intros H. induction l as [| a l IH]; simpl;
    [reflexivity | rewrite H, IH; reflexivity].
Qed.

Lemma matches_present (v : string) (p : PatientId) :
  matches_patient_id (Some v) p = JS.strict_eq (Some v) p.
Proof. destruct p; reflexivity. Qed.

Lemma existsb_patient_ids (f : PatientId -> bool) (l : list Entity) :
  existsb (fun o => f (patient_id o)) l = existsb f (map patient_id l).
Proof.
  induction l as [| o l IH]; simpl; [reflexivity | rewrite IH; reflexivity].
Qed.

Lemma existsb_snoc {A : Type} (f : A -> bool) (l : list A) (x : A) :
  existsb f (l ++ [x])%list = existsb f l || f x.
Proof.
  rewrite existsb_app. simpl. rewrite orb_false_r. reflexivity.
Qed.

(** Position by position, what the loop over flag rows with documents
    does: after the rows [done] the objects are [marked_by done]; after
    the rows [rest] as well they are [marked_by (done ++ rest)]. *)
Lemma each_risk_marks (objects : list Entity) :
  forall rest done current,
    Forall has_doc rest ->
    map patient_id current = map patient_id objects ->
    (forall i o, nth_error objects i = Some o ->
       nth_error current i = Some (marked_by done objects i o)) ->
    snd (each_risk rest current) = false /\
    forall i o, nth_error objects i = Some o ->
      nth_error (fst (each_risk rest current)) i
      = Some (marked_by (done ++ rest)%list objects i o).
Proof.
  induction rest as [| r rest IH]; intros done current Hdocs Hids Hcur.
  - simpl. rewrite app_nil_r. auto.
  - inversion Hdocs as [| ? ? Hr Hrest]; subst. unfold has_doc in Hr.
    simpl. destruct (doc r) as [d |] eqn:Ed; [| contradiction].
    replace (done ++ r :: rest)%list with ((done ++ [r]) ++ rest)%list
      by (rewrite <- app_assoc; reflexivity).
    apply IH; [exact Hrest | |].
    + rewrite <- Hids. clear.
      induction current as [| c l IHl]; simpl; [reflexivity |].
      destruct (matches_patient_id (doc_patient_id d) (patient_id c)); simpl;
        [reflexivity | rewrite IHl; reflexivity].
    + intros i o Hi. rewrite mark_first_nth, (Hcur i o Hi).
      f_equal.
      rewrite (existsb_patient_ids
                 (fun p => matches_patient_id (doc_patient_id d) p)),
        <- firstn_map, Hids, firstn_map, <- existsb_patient_ids.
      assert (Hp : patient_id (marked_by done objects i o) = patient_id o).
      { unfold marked_by. destruct (flagged_first _ _ _ _); reflexivity. }
      rewrite Hp. unfold marked_by, flagged_first.
      destruct (patient_id o) as [v |] eqn:Ev; [| reflexivity].
      unfold matches_patient_id at 1.
      rewrite existsb_snoc.
      replace (row_has_patient (Some v) r)
        with (JS.strict_eq (doc_patient_id d) (Some v))
        by (unfold row_has_patient; rewrite Ed; reflexivity).
      destruct (JS.strict_eq (doc_patient_id d) (Some v)) eqn:E.
      * apply strict_eq_true in E. rewrite E. rewrite orb_true_r.
        simpl andb at 2.
        assert (Hfirst :
          existsb (fun o0 => matches_patient_id (Some v) (patient_id o0))
            (firstn i objects)
          = existsb (fun o' => JS.strict_eq (patient_id o) (patient_id o'))
              (firstn i objects)).
        { rewrite Ev. apply existsb_pointwise. intros a.
          apply matches_present. }
        rewrite Hfirst. fold (first_of_patient objects i o).
        destruct (first_of_patient objects i o);
          [| rewrite !andb_false_r; reflexivity].
        rewrite !andb_true_r. simpl.
        destruct (existsb _ done); reflexivity.
      * rewrite orb_false_r. reflexivity.
Qed.


(** An entity and a flag document that both lack [patient_id]: the
    entity is not marked. *)
Example injectRisk_missing_identifiers :
  snd (fst (injectRisk (scripted_db script_flag_without_id) sample_forms
              [entity_without_id] initial_world))
  = [entity_without_id].
Proof. reflexivity. Qed.

(* ================================================================= *)
(** ** Empty filters and missing response fields *)

(** C10. With no options, no identifier sequence or an empty one,
    [getVisits] and [getHighRisk] call back with the bare empty array and
    make no engine call.  A bare array has no [rows] property and is not
    the object [{total_rows: 0, rows: []}] with which
    [ftiWithPatientIds] answers an empty identifier sequence. *)
Theorem getVisits_getHighRisk_bare_array
    (db_fti : Db) (anc_forms : string -> option string)
    (now_ms host_offset : Z) (options : option Options) (w : World) :
  options = None \/
  (exists o, options = Some o /\
             (patientIds o = None \/ patientIds o = Some [])) ->
  getVisits db_fti anc_forms now_ms host_offset options w
  = (w, Ok (Array [])) /\
  getHighRisk db_fti anc_forms options w = (w, Ok (Array [])) /\
  fetched_rows (Array []) = None /\
  (forall o, patientIds o = Some [] ->
     ftiWithPatientIds db_fti o w
     = (w, Ok {| total_rows := JS.Int 0; rows := [] |})) /\
  Array [] <> Object {| total_rows := JS.Int 0; rows := [] |}.
Proof.
  intros H.
  assert (Hl : lacks_patient_ids options = true).
  { destruct H as [-> | (o & -> & [Hp | Hp])]; simpl;
      try rewrite Hp; reflexivity. }
  repeat split.
  - unfold getVisits. destruct options as [o |]; [| reflexivity].
    rewrite Hl. reflexivity.
  - unfold getHighRisk. destruct options as [o |]; [| reflexivity].
    rewrite Hl. reflexivity.
  - intros o Ho. unfold ftiWithPatientIds. rewrite Ho. reflexivity.
  - discriminate.
Qed.

(** C9, as the code has it.  When the engine reports no error, [fti]
    calls back with a result: [{total_rows: 0, rows: []}] for a null
    response; for a non-null response the engine's own [total_rows],
    missing if the engine left it out, and the engine's rows, or the
    empty sequence when the response has none. *)
Theorem fti_fills_in_rows
    (db_fti : Db) (options : Options) (w : World) :
  reply_err (db_fti (calls w) (fti_call options)) = None ->
  exists r,
    fti db_fti options w = (record_call (fti_call options) w, Ok r) /\
    match reply_result (db_fti (calls w) (fti_call options)) with
    | None => r = {| total_rows := JS.Int 0; rows := [] |}
    | Some raw =>
        total_rows r = raw_total_rows raw /\
        rows r = match raw_rows raw with
                 | Some l => l
                 | None => []
                 end
    end.
Proof.
  intros Herr. unfold fti. unfold fti_call in *. simpl in *.
  rewrite Herr.
  destruct (reply_result _) as [raw |]; eexists; split;
    try reflexivity; auto.
Qed.

(** C9 fails where the engine's non-null response has no [total_rows]:
    the caller then receives a result without it. *)
Lemma fti_missing_total_rows :
  exists r,
    fti (scripted_db [reply_bare]) no_options initial_world
    = (record_call (fti_call no_options) initial_world, Ok r) /\
    total_rows r = JS.Undefined.
Proof.
  eexists. split; reflexivity.
Qed.

(* ================================================================= *)
(** ** Dates *)



Lemma local_day_add_weeks (n : Z) (m : Moment.t) :
  Moment.local_day (Moment.add_weeks n m) = Moment.local_day m + 7 * n.
Proof.
  unfold Moment.local_day, Moment.add_weeks.
  cbn [Moment.instant Moment.offset].
  replace (Moment.instant m + n * Moment.ms_per_week
           + Moment.offset m * 60000)
    with (Moment.instant m + Moment.offset m * 60000
          + (7 * n) * Moment.ms_per_day)
    by (unfold Moment.ms_per_week, Moment.ms_per_day; lia).
  apply Z.div_add. unfold Moment.ms_per_day. lia.
Qed.

(** The UTC day of an instant does not depend on its time of day. *)
Lemma utc_day_time_of_day (day t offset : Z) :
  0 <= t < Moment.ms_per_day ->
  Moment.utc_day
    {| Moment.instant := day * Moment.ms_per_day + t;
       Moment.offset := offset |}
  = day.
Proof.
  intros Ht. unfold Moment.utc_day. cbn [Moment.instant].
  symmetry. apply (Z.div_unique _ _ day t); lia.
Qed.


(* ================================================================= *)
(** ** Pregnancy calculators *)

Lemma not_reported (d : Doc) :
  form d <> Some "R" -> JS.strict_eq (form d) (Some "R") = false.
Proof.
  intros H. destruct (JS.strict_eq (form d) (Some "R")) eqn:E;
    [| reflexivity].
  apply strict_eq_true in E. contradiction.
Qed.

(** C2 fails as stated: 42 weeks after 2020-01-01 is 2020-10-21. *)
Lemma getEDD_lmp_2020_01_01_not_oct_28 :
  Moment.format
    (EDD.date (getEDD sample_now 0 (lmp_doc (Moment.utc_midnight 2020 1 1))))
  <> "2020-10-28".
Proof. vm_compute. discriminate. Qed.

(** C2, as the code has it.  For a record whose form is not ['R'] and
    whose LMP date falls on 2020-01-01, [getEDD] returns the LMP date
    plus 42 weeks, which falls on 2020-10-21, and no [approximate]
    flag. *)
Theorem getEDD_lmp_plus_42_weeks
    (now_ms host_offset : Z) (d : Doc) (lmp : Z) :
  form d <> Some "R" ->
  lmp_date d = Some lmp ->
  Moment.local_day (Moment.of_instant host_offset lmp)
  = Moment.days_from_civil 2020 1 1 ->
  EDD.date (getEDD now_ms host_offset d)
  = Moment.add_weeks 42 (Moment.of_instant host_offset lmp) /\
  Moment.format (EDD.date (getEDD now_ms host_offset d)) = "2020-10-21" /\
  EDD.approximate (getEDD now_ms host_offset d) = None.
Proof.
  intros Hform Hlmp Hday. unfold getEDD.
  rewrite (not_reported d Hform), Hlmp. cbn [EDD.date EDD.approximate].
  unfold moment_of. repeat split.
  unfold Moment.format. rewrite local_day_add_weeks, Hday.
  vm_compute. reflexivity.
Qed.




(* ================================================================= *)
(** ** The theorems at sample inputs *)

(** Identifiers a, b, c with limit 2: two queries, six rows in total. *)
Lemma ftiWithPatientIds_chunks_and_merges_witness :
  patientIds options_abc = Some ids_abc /\
  (0 < List.length ids_abc)%nat /\
  (0 < luceneConditionalLimit (world_with_limit 2))%nat /\
  ftiWithPatientIds (scripted_db script_abc) options_abc (world_with_limit 2)
  = ({| luceneConditionalLimit := 2;
        calls := map (chunk_call options_abc)
                   [[Some "a"; Some "b"]; [Some "c"]] |},
     Ok {| total_rows := JS.Int 6;
           rows := [row_of "V" "a"; row_of "V" "b"; row_of "V" "c"] |}).
Proof.
  assert (Hn : (0 < List.length ids_abc)%nat) by (simpl; lia).
  assert (Hl : (0 < luceneConditionalLimit (world_with_limit 2))%nat)
    by (simpl; lia).
  split; [reflexivity |]. split; [exact Hn |]. split; [exact Hl |].
  destruct (ftiWithPatientIds_chunks_and_merges
              (scripted_db script_abc) options_abc ids_abc
              (world_with_limit 2) eq_refl Hn Hl)
    as (chunks & Hchunk & _ & _ & _ & _ & Hmerge).
  vm_compute in Hchunk. injection Hchunk as Hchunk. subst chunks.
  destruct (Hmerge
              [{| total_rows := JS.Int 5;
                  rows := [row_of "V" "a"; row_of "V" "b"] |};
               {| total_rows := JS.Int 1; rows := [row_of "V" "c"] |}]
              {| luceneConditionalLimit := 2;
                 calls := map (chunk_call options_abc)
                            [[Some "a"; Some "b"]; [Some "c"]] |}
              eq_refl) as [Hrun _].
  exact Hrun.
Defined.

Lemma ftiWithPatientIds_empty_ids_witness :
  patientIds options_no_ids = Some [] /\
  ftiWithPatientIds (scripted_db script_abc) options_no_ids initial_world
  = (initial_world, Ok {| total_rows := JS.Int 0; rows := [] |}).
Proof.
  split; [reflexivity |].
  apply (ftiWithPatientIds_empty_ids (scripted_db script_abc)
           options_no_ids initial_world).
  reflexivity.
Defined.

(** Identifiers a, b with limit 1: the second query fails. *)
Lemma ftiWithPatientIds_stops_at_failure_witness :
  ftiWithPatientIds (scripted_db script_fail) options_ab (world_with_limit 1)
  = ({| luceneConditionalLimit := 1;
        calls := map (chunk_call options_ab) [[Some "a"]; [Some "b"]] |},
     Failed "index error").
Proof.
  assert (Hn : (0 < List.length [Some "a"; Some "b"])%nat) by (simpl; lia).
  destruct (ftiWithPatientIds_stops_at_failure
              (scripted_db script_fail) options_ab [Some "a"; Some "b"]
              (world_with_limit 1)
              {| luceneConditionalLimit := 1;
                 calls := [chunk_call options_ab [Some "a"]] |}
              [[Some "a"]] [] [Some "b"]
              [{| total_rows := JS.Int 5; rows := [row_of "V" "a"] |}]
              "index error"
              eq_refl Hn eq_refl eq_refl eq_refl) as [Hrun _].
  exact Hrun.
Defined.

Lemma rejectDeliveries_keeps_undelivered_witness :
  rejectDeliveries (scripted_db script_delivered_AB) sample_forms
    entities_ACBD (world_with_limit 2)
  = ({| luceneConditionalLimit := 2;
        calls := map (chunk_call
                        {| q := Some "form:D"; sort := None;
                           include_docs := Some true; limit := None;
                           patientIds := None; startDate := None;
                           endDate := None; district := None |})
                   [[Some "A"; Some "C"]; [Some "B"; Some "D"]] |},
     Ok [entity_of "C"; entity_of "D"]).
Proof.
  destruct (rejectDeliveries_keeps_undelivered
              (scripted_db script_delivered_AB) sample_forms
              (world_with_limit 2)) as (_ & Hjoin & _).
  apply (Hjoin entities_ACBD
           {| luceneConditionalLimit := 2;
              calls := map (chunk_call
                        {| q := Some "form:D"; sort := None;
                           include_docs := Some true; limit := None;
                           patientIds := None; startDate := None;
                           endDate := None; district := None |})
                   [[Some "A"; Some "C"]; [Some "B"; Some "D"]] |}
           {| total_rows := JS.Int 2;
              rows := [row_of "D" "A"; row_of "D" "B"] |}).
  - reflexivity.
  - repeat constructor; discriminate.
Defined.


Lemma getVisits_getHighRisk_bare_array_witness :
  getVisits (scripted_db script_abc) sample_forms sample_now 0
    (Some options_no_ids) initial_world
  = (initial_world, Ok (Array [])) /\
  getHighRisk (scripted_db script_abc) sample_forms
    (Some options_no_ids) initial_world
  = (initial_world, Ok (Array [])).
Proof.
  destruct (getVisits_getHighRisk_bare_array
              (scripted_db script_abc) sample_forms sample_now 0
              (Some options_no_ids) initial_world) as (Hv & Hr & _).
  - right. exists options_no_ids. split; [reflexivity |].
    right. reflexivity.
  - split; assumption.
Defined.

Lemma fti_fills_in_rows_witness :
  exists r,
    fti (scripted_db [reply_bare]) no_options initial_world
    = (record_call (fti_call no_options) initial_world, Ok r) /\
    rows r = [].
Proof.
  destruct (fti_fills_in_rows (scripted_db [reply_bare]) no_options
              initial_world eq_refl) as (r & Hrun & Hfields).
  exists r. split; [exact Hrun |].
  simpl in Hfields. destruct Hfields as [_ Hrows]. exact Hrows.
Defined.


(** An LMP date of 2020-01-01, 08:30 in a zone two hours east. *)
Lemma getEDD_lmp_plus_42_weeks_witness :
  Moment.format
    (EDD.date
       (getEDD sample_now 120
          (lmp_doc (Moment.utc_midnight 2020 1 1 + 23400000))))
  = "2020-10-21".
Proof.
  refine (proj1 (proj2 (getEDD_lmp_plus_42_weeks sample_now 120
            (lmp_doc (Moment.utc_midnight 2020 1 1 + 23400000))
            (Moment.utc_midnight 2020 1 1 + 23400000) _ _ _))).
  - discriminate.
  - reflexivity.
  - vm_compute. reflexivity.
Defined.


(* ================================================================= *)
(** ** More on chunking and the executor *)

(** X1. With a positive size every chunk but the last holds exactly
    [size] items, and the chunk at position [k] holds the
    [min size (N - k * size)] items that are left at that point. *)
Theorem chunk_lengths {A : Type} (items : list A) (size : nat) :
  (0 < size)%nat ->
  exists cs,
    chunk items size = Some cs /\
    forall k, (k < List.length cs)%nat ->
      List.length (nth k cs [])
      = Nat.min size (List.length items - k * size) /\
      ((S k < List.length cs)%nat -> List.length (nth k cs []) = size).
Proof.
  intros Hs.
  destruct (chunk_spec items size Hs)
    as (cs & Hchunk & _ & _ & Hlen & Hnth).
  exists cs. split; [exact Hchunk |].
  intros k Hk.
  assert (Hk_len : List.length (nth k cs [])
                   = Nat.min size (List.length items - k * size)).
  { rewrite (Hnth k Hk). unfold JS.slice.
    rewrite List.length_firstn, List.length_skipn.
    replace (k * size + size - k * size)%nat with size by lia.
    reflexivity. }
  split; [exact Hk_len |].
  intros Hnext. rewrite Hk_len.
  destruct (ceil_div_spec (List.length items) size Hs) as [_ Hupper].
  rewrite <- Hlen in Hupper.
  assert ((k + 2) * size <= List.length cs * size)%nat
    by (apply Nat.mul_le_mono_r; lia).
  lia.
Qed.

Lemma chunk_lengths_witness :
  exists cs,
    chunk ids_abc 2 = Some cs /\
    List.length (nth 0 cs []) = 2%nat /\
    List.length (nth 1 cs []) = 1%nat.
Proof.
  destruct (chunk_lengths ids_abc 2) as (cs & Hchunk & Hlen);
    [lia |].
  exists cs. split; [exact Hchunk |].
  assert (Hcs : List.length cs = 2%nat).
  { vm_compute in Hchunk. injection Hchunk as Hchunk. subst cs.
    reflexivity. }
  split.
  - destruct (Hlen 0%nat) as [_ H]; [lia |]. apply H. lia.
  - destruct (Hlen 1%nat) as [H _]; [lia |]. exact H.
Defined.

(** X2. With a limit of [0] and at least one identifier to look for, the
    executor never calls back and never reaches the engine. *)
Theorem ftiWithPatientIds_hangs_on_zero_limit
    (db_fti : Db) (options : Options) (ids : list PatientId) (w : World) :
  patientIds options = Some ids ->
  ids <> [] ->
  ftiWithPatientIds db_fti options (setup 0 w)
  = (setup 0 w, Diverged).
Proof.
  intros Hids Hne.
  apply (ftiWithPatientIds_zero_limit db_fti options ids (setup 0 w));
    [exact Hids | exact Hne | reflexivity].
Qed.

Lemma ftiWithPatientIds_hangs_on_zero_limit_witness :
  ftiWithPatientIds (scripted_db script_abc) options_abc
    (setup 0 initial_world)
  = (setup 0 initial_world, Diverged).
Proof.
  apply (ftiWithPatientIds_hangs_on_zero_limit
           (scripted_db script_abc) options_abc ids_abc initial_world).
  - reflexivity.
  - discriminate.
Defined.

Lemma async_reduce_calls_prefix (db_fti : Db) (options : Options) :
  forall chunks memo w,
    exists k,
      (k <= List.length chunks)%nat /\
      calls (fst (async_reduce chunks memo (merge_chunk db_fti options) w))
      = (calls w ++ map (chunk_call options) (firstn k chunks))%list.
Proof.
  induction chunks as [| ids rest IH]; intros memo w.
  - exists 0%nat. simpl. rewrite app_nil_r. auto.
  - simpl async_reduce. unfold bind at 1. unfold merge_chunk at 1.
    unfold bind at 1.
    pose proof (fti_chunk_world db_fti options ids w) as Hw.
    destruct (fti db_fti (chunk_options options ids) w)
      as [w1 [r | e | |]] eqn:Efti; simpl in Hw; subst w1.
    + unfold ret at 1.
      destruct (IH {| total_rows := JS.add (total_rows memo) (total_rows r);
                      rows := (rows memo ++ rows r)%list |}
                  (record_call (chunk_call options ids) w))
        as (k & Hk & Hcalls).
      exists (S k). split; [simpl; lia |].
      rewrite Hcalls. simpl. rewrite <- app_assoc. reflexivity.
    + exists 1%nat. split; [simpl; lia |]. reflexivity.
    + exists 1%nat. split; [simpl; lia |]. reflexivity.
    + exists 1%nat. split; [simpl; lia |]. reflexivity.
Qed.

(** X3. Whatever the engine answers, the engine calls a filtered query
    makes are the queries of the first [k] chunks, in chunk order, for
    some [k] up to [ceil(N / L)]; none of them carries a [sort] or a
    [limit], whatever the options say. *)
Theorem ftiWithPatientIds_calls_are_chunk_queries
    (db_fti : Db) (options : Options) (ids : list PatientId) (w : World) :
  patientIds options = Some ids ->
  (0 < luceneConditionalLimit w)%nat ->
  exists chunks k,
    chunk ids (luceneConditionalLimit w) = Some chunks /\
    (k <= ceil_div (List.length ids) (luceneConditionalLimit w))%nat /\
    calls (fst (ftiWithPatientIds db_fti options w))
    = (calls w ++ map (chunk_call options) (firstn k chunks))%list /\
    Forall (fun c => qo_sort (query c) = None /\ qo_limit (query c) = None)
      (map (chunk_call options) (firstn k chunks)).
Proof.
  intros Hids Hl.
  destruct (chunk_spec ids (luceneConditionalLimit w) Hl)
    as (chunks & Hchunk & _ & _ & Hlen & _).
  exists chunks.
  assert (Hfields : forall l,
    Forall (fun c => qo_sort (query c) = None /\ qo_limit (query c) = None)
      (map (chunk_call options) l)).
  { induction l; simpl; constructor; auto. }
  unfold ftiWithPatientIds. rewrite Hids.
  destruct (Nat.eqb_spec (List.length ids) 0) as [E | E].
  - exists 0%nat. simpl. rewrite app_nil_r.
    split; [exact Hchunk |]. split; [lia |]. split; [reflexivity | constructor].
  - cbv beta. rewrite Hchunk.
    destruct (async_reduce_calls_prefix db_fti options chunks
                {| total_rows := JS.Int 0; rows := [] |} w)
      as (k & Hk & Hcalls).
    exists k. rewrite <- Hlen.
    split; [reflexivity |].
    split; [exact Hk |]. split; [exact Hcalls | apply Hfields].
Qed.

Lemma ftiWithPatientIds_calls_are_chunk_queries_witness :
  exists chunks k,
    chunk [Some "a"; Some "b"] 1 = Some chunks /\
    (k <= 2)%nat /\
    calls (fst (ftiWithPatientIds (scripted_db script_fail) options_ab
                  (world_with_limit 1)))
    = map (chunk_call options_ab) (firstn k chunks).
Proof.
  destruct (ftiWithPatientIds_calls_are_chunk_queries
              (scripted_db script_fail) options_ab [Some "a"; Some "b"]
              (world_with_limit 1) eq_refl)
    as (chunks & k & Hchunk & Hk & Hcalls & _).
  - simpl. lia.
  - exists chunks, k. split; [exact Hchunk |]. split; [exact Hk |].
    exact Hcalls.
Defined.

Lemma add_not_undefined (a b : JS.Num) : JS.add a b <> JS.Undefined.
Proof. destruct a, b; discriminate. Qed.

Lemma async_reduce_total (db_fti : Db) (options : Options) :
  forall chunks memo w w' r,
    total_rows memo <> JS.Undefined ->
    async_reduce chunks memo (merge_chunk db_fti options) w = (w', Ok r) ->
    total_rows r <> JS.Undefined.
Proof.
  induction chunks as [| ids rest IH]; intros memo w w' r Hmemo Hrun.
  - simpl in Hrun. unfold ret in Hrun. inversion Hrun; subst. exact Hmemo.
  - simpl in Hrun. unfold bind at 1 in Hrun. unfold merge_chunk at 1 in Hrun.
    unfold bind at 1 in Hrun.
    destruct (fti db_fti (chunk_options options ids) w)
      as [w1 [r1 | e | |]]; try discriminate.
    unfold ret at 1 in Hrun.
    eapply IH; [| exact Hrun]. simpl. apply add_not_undefined.
Qed.

(** X4. A filtered query never calls back with a missing [total_rows]:
    the merged total starts from [0], so it is a number or [NaN] even
    when the engine leaves [total_rows] out of a response. *)
Theorem ftiWithPatientIds_total_rows_present
    (db_fti : Db) (options : Options) (ids : list PatientId)
    (w w' : World) (r : Result) :
  patientIds options = Some ids ->
  ftiWithPatientIds db_fti options w = (w', Ok r) ->
  total_rows r <> JS.Undefined.
Proof.
  intros Hids Hrun. unfold ftiWithPatientIds in Hrun. rewrite Hids in Hrun.
  destruct (List.length ids =? 0)%nat.
  - unfold ret in Hrun. inversion Hrun; subst. discriminate.
  - cbv beta in Hrun.
    destruct (chunk ids (luceneConditionalLimit w)) as [chunks |];
      [| discriminate].
    eapply async_reduce_total; [| exact Hrun]. discriminate.
Qed.

(** A response without [total_rows] is merged into [NaN]. *)
Lemma ftiWithPatientIds_total_rows_present_witness :
  snd (ftiWithPatientIds (scripted_db [reply_bare]) options_ab initial_world)
  = Ok {| total_rows := JS.NaN; rows := [] |} /\
  JS.NaN <> JS.Undefined.
Proof.
  split; [reflexivity |].
  apply (ftiWithPatientIds_total_rows_present
           (scripted_db [reply_bare]) options_ab [Some "a"; Some "b"]
           initial_world
           (record_call (chunk_call options_ab [Some "a"; Some "b"])
              initial_world)
           {| total_rows := JS.NaN; rows := [] |});
    reflexivity.
Defined.

(* ================================================================= *)
(** ** The queries *)

(** [ftiWithPatientIds] reads five properties of its options and no
    other. *)
Lemma ftiWithPatientIds_reads (db_fti : Db) (o1 o2 : Options) (w : World) :
  q o1 = q o2 ->
  sort o1 = sort o2 ->
  include_docs o1 = include_docs o2 ->
  limit o1 = limit o2 ->
  patientIds o1 = patientIds o2 ->
  ftiWithPatientIds db_fti o1 w = ftiWithPatientIds db_fti o2 w.
Proof.
  destruct o1, o2. simpl. intros; subst. reflexivity.
Qed.

(** The first query of a search is rejected by the engine. *)
Lemma ftiWithPatientIds_first_error
    (db_fti : Db) (options : Options) (w : World) (err : Error) :
  (forall c, reply_err (db_fti (calls w) c) = Some err) ->
  (0 < luceneConditionalLimit w)%nat ->
  patientIds options <> Some [] ->
  exists c,
    ftiWithPatientIds db_fti options w = (record_call c w, Failed err).
Proof.
  intros Herr Hl Hne. unfold ftiWithPatientIds.
  destruct (patientIds options) as [ids |] eqn:Hids.
  - destruct ids as [| x xs]; [contradiction |].
    change (List.length (x :: xs) =? 0)%nat with false. cbv beta iota.
    destruct (chunk_spec (x :: xs) (luceneConditionalLimit w) Hl)
      as (chunks & Hchunk & Hcat & _).
    rewrite Hchunk.
    destruct chunks as [| c rest]; [discriminate |].
    exists (chunk_call options c).
    simpl. unfold bind, merge_chunk, bind.
    rewrite (fti_failed db_fti options c w err (Herr _)). reflexivity.
  - eexists. unfold fti. rewrite Herr. reflexivity.
Qed.

(** X5. [getDeliveries] filters by date only when both dates are given:
    a start date without an end date, or an end date without a start
    date, is ignored. *)
Theorem getDeliveries_needs_both_dates
    (db_fti : Db) (anc_forms : string -> option string)
    (options : Options) (w : World) :
  startDate options = None \/ endDate options = None ->
  getDeliveries db_fti anc_forms options w
  = getDeliveries db_fti anc_forms
      {| q := q options; sort := sort options;
         include_docs := include_docs options; limit := limit options;
         patientIds := patientIds options;
         startDate := None; endDate := None;
         district := district options |} w.
Proof.
  intros H. unfold getDeliveries. cbn [startDate endDate district].
  apply ftiWithPatientIds_reads; cbn [q sort include_docs limit patientIds];
    try reflexivity.
  destruct H as [-> | ->]; [| destruct (startDate options)]; reflexivity.
Qed.

Lemma getDeliveries_needs_both_dates_witness :
  calls (fst (getDeliveries (scripted_db script_abc) sample_forms
                options_lone_start initial_world))
  = [{| index := "data_records";
        query := {| qo_q := Some "form:D"; qo_sort := None;
                    qo_include_docs := None; qo_limit := None |} |}].
Proof.
  rewrite (getDeliveries_needs_both_dates (scripted_db script_abc)
             sample_forms options_lone_start initial_world).
  - reflexivity.
  - right. reflexivity.
Defined.








(* ================================================================= *)
(** ** Birth-eligible patient identifiers *)

Lemma contains_in (seen : list PatientId) (v : PatientId) :
  Underscore.contains seen v = true <-> In v seen.
Proof.
  unfold Underscore.contains. rewrite existsb_exists. split.
  - intros (x & Hx & E). apply strict_eq_true in E. subst. exact Hx.
  - intros H. exists v. split; [exact H | apply strict_eq_true; reflexivity].
Qed.

Lemma NoDup_snoc {A : Type} (l : list A) (x : A) :
  NoDup l -> ~ In x l -> NoDup (l ++ [x])%list.
Proof.
  induction 1 as [| y l Hy Hl IH]; intros Hx; simpl.
  - constructor; [intros [] | constructor].
  - constructor.
    + rewrite in_app_iff. simpl. intros [H | [H | []]].
      * contradiction.
      * subst. apply Hx. left. reflexivity.
    + apply IH. intros H. apply Hx. right. exact H.
Qed.

Lemma uniq_fold (values : list PatientId) :
  forall seen,
    NoDup seen ->
    NoDup (fold_left Underscore.uniq_step values seen) /\
    forall x, In x (fold_left Underscore.uniq_step values seen)
              <-> In x seen \/ In x values.
Proof.
  induction values as [| v rest IH]; intros seen Hseen; simpl.
  - split; [exact Hseen |]. intros x. tauto.
  - unfold Underscore.uniq_step at 2 4.
    destruct (Underscore.contains seen v) eqn:E.
    + apply contains_in in E.
      destruct (IH seen Hseen) as [Hn Hin]. split; [exact Hn |].
      intros x. rewrite Hin. split; [tauto |].
      intros [H | [H | H]]; subst; auto.
    + assert (Hv : ~ In v seen).
      { intros H. apply contains_in in H. congruence. }
      destruct (IH (seen ++ [v])%list (NoDup_snoc seen v Hseen Hv))
        as [Hn Hin].
      split; [exact Hn |].
      intros x. rewrite Hin, in_app_iff. simpl. tauto.
Qed.

Lemma collect_rows_with_docs (rs : list Row) :
  Forall has_doc rs -> collect_rows rs = Some (map row_patient_id rs).
Proof.
  induction 1 as [| r rest Hr _ IH]; simpl.
  - reflexivity.
  - unfold has_doc in Hr. unfold row_patient_id at 1.
    destruct (doc r); [| contradiction]. rewrite IH. reflexivity.
Qed.

(** X8. When the registrations and the deliveries are fetched with their
    documents, [getBirthPatientIds] calls back with a sequence without
    duplicates that holds exactly the patient identifiers found on a
    delivery row or on a registration row. *)
Theorem getBirthPatientIds_is_union
    (db_fti : Db) (anc_forms : string -> option string)
    (now_ms host_offset : Z) (options : WeekOptions) (w w1 w2 : World)
    (registrations deliveries : Result) :
  getAllRegistrations db_fti anc_forms now_ms host_offset
    (birth_registration_options options) w
  = (w1, Ok registrations) ->
  getDeliveries db_fti anc_forms (birth_delivery_options options) w1
  = (w2, Ok deliveries) ->
  Forall has_doc (rows registrations) ->
  Forall has_doc (rows deliveries) ->
  exists ids,
    getBirthPatientIds db_fti anc_forms now_ms host_offset options w
    = (w2, Ok ids) /\
    NoDup ids /\
    forall pid,
      In pid ids <->
      In pid (map row_patient_id (rows deliveries)) \/
      In pid (map row_patient_id (rows registrations)).
Proof.
  intros Hreg Hdel Hrdocs Hddocs.
  exists (Underscore.union (map row_patient_id (rows deliveries))
            (map row_patient_id (rows registrations))).
  split.
  - unfold getBirthPatientIds, bind. rewrite Hreg, Hdel.
    unfold collectPatientIds.
    rewrite (collect_rows_with_docs _ Hddocs),
      (collect_rows_with_docs _ Hrdocs).
    reflexivity.
  - unfold Underscore.union, Underscore.uniq.
    destruct (uniq_fold
                (map row_patient_id (rows deliveries)
                 ++ map row_patient_id (rows registrations))%list []
                (NoDup_nil _)) as [Hn Hin].
    split; [exact Hn |].
    intros pid. rewrite Hin, in_app_iff. simpl. tauto.
Qed.

(** Registrations of a and b, deliveries of b and c: the union is
    b, c, a. *)
Lemma getBirthPatientIds_is_union_witness :
  snd (getBirthPatientIds (scripted_db script_births) sample_forms
         sample_now 0 week_options_none initial_world)
  = Ok [Some "b"; Some "c"; Some "a"] /\
  NoDup [Some "b"; Some "c"; Some "a"].
Proof.
  destruct (getBirthPatientIds_is_union (scripted_db script_births)
              sample_forms sample_now 0 week_options_none initial_world
              (fst (getAllRegistrations (scripted_db script_births)
                      sample_forms sample_now 0
                      (birth_registration_options week_options_none)
                      initial_world))
              (fst (getBirthPatientIds (scripted_db script_births)
                      sample_forms sample_now 0 week_options_none
                      initial_world))
              {| total_rows := JS.Int 2;
                 rows := [row_of "R" "a"; row_of "P" "b"] |}
              {| total_rows := JS.Int 2;
                 rows := [row_of "D" "b"; row_of "D" "c"] |})
    as (ids & Hrun & Hnodup & _).
  - reflexivity.
  - reflexivity.
  - repeat constructor; discriminate.
  - repeat constructor; discriminate.
  - pose proof (f_equal snd Hrun) as H. vm_compute in H.
    injection H as H. subst ids.
    split; [reflexivity | exact Hnodup].
Defined.

(** X9. With an identifier filter that is present and empty,
    [getBirthPatientIds] calls back with no identifier and never reaches
    the engine. *)
Theorem getBirthPatientIds_empty_filter
    (db_fti : Db) (anc_forms : string -> option string)
    (now_ms host_offset : Z) (options : WeekOptions) (w : World) :
  patientIds (base options) = Some [] ->
  getBirthPatientIds db_fti anc_forms now_ms host_offset options w
  = (w, Ok []).
Proof.
  intros Hids.
  unfold getBirthPatientIds, bind, getAllRegistrations, getDeliveries.
  cbn [base birth_registration_options birth_delivery_options
       after_registrations patientIds].
  destruct (match startDate (base options) with
            | Some s =>
                match endDate (base options) with
                | Some e => (s, e)
                | None => _
                end
            | None => _
            end) as [s e].
  unfold ftiWithPatientIds. cbn [patientIds]. rewrite Hids.
  reflexivity.
Qed.

Lemma getBirthPatientIds_empty_filter_witness :
  getBirthPatientIds (scripted_db script_births) sample_forms sample_now 0
    {| base := options_no_ids; maxWeeksPregnant := None;
       minWeeksPregnant := None |} initial_world
  = (initial_world, Ok []).
Proof.
  apply (getBirthPatientIds_empty_filter (scripted_db script_births)
           sample_forms sample_now 0
           {| base := options_no_ids; maxWeeksPregnant := None;
              minWeeksPregnant := None |} initial_world).
  reflexivity.
Defined.

(** X10. When the engine rejects the first query, [getBirthPatientIds]
    passes the error on after that one call: the deliveries are never
    asked for. *)
Theorem getBirthPatientIds_first_error
    (db_fti : Db) (anc_forms : string -> option string)
    (now_ms host_offset : Z) (options : WeekOptions) (w : World)
    (err : Error) :
  (forall c, reply_err (db_fti (calls w) c) = Some err) ->
  (0 < luceneConditionalLimit w)%nat ->
  patientIds (base options) <> Some [] ->
  exists c,
    getBirthPatientIds db_fti anc_forms now_ms host_offset options w
    = (record_call c w, Failed err).
Proof.
  intros Herr Hl Hne.
  unfold getBirthPatientIds, bind at 1, getAllRegistrations.
  cbn [base birth_registration_options].
  destruct (match startDate (base options) with
            | Some s =>
                match endDate (base options) with
                | Some e => (s, e)
                | None => _
                end
            | None => _
            end) as [s e].
  match goal with
  | |- context [ftiWithPatientIds db_fti ?o w] =>
      destruct (ftiWithPatientIds_first_error db_fti o w err Herr Hl Hne)
        as (c & Hrun); rewrite Hrun
  end.
  exists c. reflexivity.
Qed.

Lemma getBirthPatientIds_first_error_witness :
  exists c,
    getBirthPatientIds (scripted_db script_error_first) sample_forms
      sample_now 0 week_options_none initial_world
    = (record_call c initial_world, Failed "index error").
Proof.
  apply (getBirthPatientIds_first_error (scripted_db script_error_first)
           sample_forms sample_now 0 week_options_none initial_world
           "index error").
  - intros c. reflexivity.
  - simpl. lia.
  - discriminate.
Defined.

(* ================================================================= *)
(** ** The joins when the engine fails or has nothing to do *)

(** X11. When the engine rejects the first query, [rejectDeliveries] on
    at least one entity passes the error on after that one call. *)
Theorem rejectDeliveries_first_error
    (db_fti : Db) (anc_forms : string -> option string)
    (objects : list Entity) (w : World) (err : Error) :
  (forall c, reply_err (db_fti (calls w) c) = Some err) ->
  (0 < luceneConditionalLimit w)%nat ->
  objects <> [] ->
  exists c,
    rejectDeliveries db_fti anc_forms objects w
    = (record_call c w, Failed err).
Proof.
  intros Herr Hl Hne. destruct objects as [| o rest]; [contradiction |].
  unfold rejectDeliveries.
  change (List.length (o :: rest) =? 0)%nat with false. cbv iota.
  unfold bind, getDeliveries.
  match goal with
  | |- context [ftiWithPatientIds db_fti ?opts w] =>
      destruct (ftiWithPatientIds_first_error db_fti opts w err Herr Hl)
        as (c & Hrun); [discriminate | rewrite Hrun]
  end.
  exists c. reflexivity.
Qed.

Lemma rejectDeliveries_first_error_witness :
  exists c,
    rejectDeliveries (scripted_db script_error_first) sample_forms
      entities_ACBD initial_world
    = (record_call c initial_world, Failed "index error").
Proof.
  apply (rejectDeliveries_first_error (scripted_db script_error_first)
           sample_forms entities_ACBD initial_world "index error").
  - intros c. reflexivity.
  - simpl. lia.
  - discriminate.
Defined.

(** X12. When the engine rejects the first query, [injectRisk] on at
    least one entity passes the error on after that one call and leaves
    every entity as it was. *)
Theorem injectRisk_first_error
    (db_fti : Db) (anc_forms : string -> option string)
    (objects : list Entity) (w : World) (err : Error) :
  (forall c, reply_err (db_fti (calls w) c) = Some err) ->
  (0 < luceneConditionalLimit w)%nat ->
  objects <> [] ->
  exists c,
    injectRisk db_fti anc_forms objects w
    = (record_call c w, objects, Failed err).
Proof.
  intros Herr Hl Hne. destruct objects as [| o rest]; [contradiction |].
  unfold injectRisk, getHighRisk.
  change (lacks_patient_ids _) with false. cbv iota. unfold bind.
  match goal with
  | |- context [ftiWithPatientIds db_fti ?opts w] =>
      destruct (ftiWithPatientIds_first_error db_fti opts w err Herr Hl)
        as (c & Hrun); [discriminate | rewrite Hrun]
  end.
  exists c. reflexivity.
Qed.

Lemma injectRisk_first_error_witness :
  exists c,
    injectRisk (scripted_db script_error_first) sample_forms
      entities_ABA initial_world
    = (record_call c initial_world, entities_ABA, Failed "index error").
Proof.
  apply (injectRisk_first_error (scripted_db script_error_first)
           sample_forms entities_ABA initial_world "index error").
  - intros c. reflexivity.
  - simpl. lia.
  - discriminate.
Defined.

(** X13. When the engine rejects the first query, [injectVisits] on at
    least one entity passes the error on after that one call; no entity
    has been given a count. *)
Theorem injectVisits_first_error
    (db_fti : Db) (anc_forms : string -> option string)
    (now_ms host_offset : Z) (objects : list Entity) (w : World)
    (err : Error) :
  (forall c, reply_err (db_fti (calls w) c) = Some err) ->
  (0 < luceneConditionalLimit w)%nat ->
  objects <> [] ->
  exists c,
    injectVisits db_fti anc_forms now_ms host_offset objects w
    = (record_call c w, Failed err).
Proof.
  intros Herr Hl Hne. destruct objects as [| o rest]; [contradiction |].
  unfold injectVisits, bind at 1, getVisits.
  change (lacks_patient_ids _) with false. cbv iota. unfold bind.
  cbn [startDate].
  match goal with
  | |- context [ftiWithPatientIds db_fti ?opts w] =>
      destruct (ftiWithPatientIds_first_error db_fti opts w err Herr Hl)
        as (c & Hrun); [discriminate | rewrite Hrun]
  end.
  exists c. reflexivity.
Qed.

Lemma injectVisits_first_error_witness :
  exists c,
    injectVisits (scripted_db script_error_first) sample_forms sample_now 0
      entities_abc initial_world
    = (record_call c initial_world, Failed "index error").
Proof.
  apply (injectVisits_first_error (scripted_db script_error_first)
           sample_forms sample_now 0 entities_abc initial_world
           "index error").
  - intros c. reflexivity.
  - simpl. lia.
  - discriminate.
Defined.

(** X14. On no entities [injectVisits] and [injectRisk] call back with
    the empty sequence without reaching the engine, whatever the chunk
    limit is. *)
Theorem inject_nothing
    (db_fti : Db) (anc_forms : string -> option string)
    (now_ms host_offset : Z) (w : World) :
  injectVisits db_fti anc_forms now_ms host_offset [] w = (w, Ok []) /\
  injectRisk db_fti anc_forms [] w = (w, [], Ok []).
Proof. split; reflexivity. Qed.

Lemma same_or_marked_patient_ids (objects objects' : list Entity) :
  Forall2 same_or_marked objects objects' ->
  map patient_id objects' = map patient_id objects.
Proof.
  induction 1 as [| o o' l l' Hoo' _ IH]; simpl.
  - reflexivity.
  - rewrite IH. destruct Hoo' as [-> | ->]; reflexivity.
Qed.

Lemma first_of_patient_ids (objects objects' : list Entity) (i : nat)
    (o o' : Entity) :
  map patient_id objects' = map patient_id objects ->
  patient_id o' = patient_id o ->
  first_of_patient objects' i o' = first_of_patient objects i o.
Proof.
  intros Hids Hpid. unfold first_of_patient. rewrite Hpid.
  rewrite !(existsb_patient_ids (fun p => JS.strict_eq (patient_id o) p)).
  rewrite <- !firstn_map, Hids. reflexivity.
Qed.

(** Marking is idempotent: the loop over the same flag rows changes
    nothing the second time. *)
Lemma each_risk_twice (flagged : list Row) (objects : list Entity) :
  Forall has_doc flagged ->
  fst (each_risk flagged (fst (each_risk flagged objects)))
  = fst (each_risk flagged objects).
Proof.
  intros Hdocs.
  pose proof (each_risk_same_or_marked flagged objects objects
                (same_or_marked_refl objects)) as Hsame.
  pose proof (same_or_marked_patient_ids _ _ Hsame) as Hids.
  destruct (each_risk_marks objects flagged [] objects Hdocs eq_refl)
    as [_ Hfirst].
  { intros i o Hi. rewrite Hi, marked_by_nil. reflexivity. }
  simpl app in Hfirst.
  set (objects1 := fst (each_risk flagged objects)) in *.
  destruct (each_risk_marks objects1 flagged [] objects1 Hdocs eq_refl)
    as [_ Hsecond].
  { intros i o Hi. rewrite Hi, marked_by_nil. reflexivity. }
  simpl app in Hsecond.
  apply nth_error_ext. intros i.
  destruct (nth_error objects1 i) as [o1 |] eqn:E1.
  - rewrite (Hsecond i o1 E1). f_equal.
    destruct (nth_error objects i) as [o |] eqn:E.
    + pose proof (Hfirst i o E) as H. rewrite E1 in H.
      injection H as H.
      assert (Hpid : patient_id o1 = patient_id o).
      { subst o1. apply marked_by_fields. }
      assert (Hsame_first :
        flagged_first flagged objects1 i o1
        = flagged_first flagged objects i o).
      { unfold flagged_first.
        rewrite (first_of_patient_ids objects objects1 i o o1 Hids Hpid),
          Hpid.
        reflexivity. }
      unfold marked_by at 1. rewrite Hsame_first.
      subst o1. unfold marked_by.
      destruct (flagged_first flagged objects i o); reflexivity.
    + exfalso. apply nth_error_None in E.
      assert (Hlen : List.length objects1 = List.length objects).
      { rewrite <- (length_map patient_id objects1), Hids.
        apply length_map. }
      assert (nth_error objects1 i <> None) by congruence.
      apply nth_error_Some in H. lia.
  - apply nth_error_None.
    apply nth_error_None in E1.
    pose proof (each_risk_same_or_marked flagged objects1 objects1
                  (same_or_marked_refl objects1)) as Hsame2.
    apply Forall2_length in Hsame2. lia.
Qed.

(** X15. Running [injectRisk] again on the entities it has marked, with
    the same flag rows fetched, changes none of them. *)
Theorem injectRisk_twice
    (db_fti : Db) (anc_forms : string -> option string)
    (objects objects1 : list Entity) (w w1 w2 : World) (risks : Result) :
  Forall has_doc (rows risks) ->
  getHighRisk db_fti anc_forms (Some (risk_options objects)) w
  = (w1, Ok (Object risks)) ->
  injectRisk db_fti anc_forms objects w = (w1, objects1, Ok objects1) ->
  getHighRisk db_fti anc_forms (Some (risk_options objects1)) w1
  = (w2, Ok (Object risks)) ->
  injectRisk db_fti anc_forms objects1 w1 = (w2, objects1, Ok objects1).
Proof.
  intros Hdocs Hfetch Hrun Hfetch2.
  unfold injectRisk in Hrun. fold (risk_options objects) in Hrun.
  rewrite Hfetch in Hrun. simpl fetched_rows in Hrun. cbv iota in Hrun.
  unfold injectRisk. fold (risk_options objects1).
  rewrite Hfetch2. simpl fetched_rows. cbv iota.
  pose proof (each_risk_twice (rows risks) objects Hdocs) as Htwice.
  destruct (each_risk_marks objects (rows risks) [] objects Hdocs eq_refl)
    as [Hdone _].
  { intros i o Hi. rewrite Hi, marked_by_nil. reflexivity. }
  destruct (each_risk (rows risks) objects) as [objs thrown] eqn:E.
  simpl in Hdone, Htwice. subst thrown.
  inversion Hrun; subst objs. clear Hrun.
  destruct (each_risk_marks objects1 (rows risks) [] objects1 Hdocs eq_refl)
    as [Hdone2 _].
  { intros i o Hi. rewrite Hi, marked_by_nil. reflexivity. }
  destruct (each_risk (rows risks) objects1) as [objs2 thrown2].
  simpl in Hdone2, Htwice. subst thrown2 objs2. reflexivity.
Qed.

Lemma injectRisk_twice_witness :
  snd (injectRisk (scripted_db script_flag_A_twice) sample_forms
         entities_ABA_marked world_flagged_once)
  = Ok entities_ABA_marked.
Proof.
  refine (f_equal snd
            (injectRisk_twice (scripted_db script_flag_A_twice) sample_forms
               entities_ABA entities_ABA_marked
               initial_world world_flagged_once world_flagged_twice
               {| total_rows := JS.Int 2;
                  rows := [row_of "F" "A"; row_of "F" "A"] |}
               _ eq_refl eq_refl eq_refl)).
  repeat constructor; discriminate.
Defined.

(* ================================================================= *)
(** ** Visit counts *)

Lemma get_count_increment (key k : string) (result : Underscore.Counts) :
  Underscore.get_count key (Underscore.increment k result)
  = if String.eqb k key
    then option_map (fun n => n + 1) (Underscore.get_count key result)
    else Underscore.get_count key result.
Proof.
  induction result as [| [k' n] rest IH]; simpl.
  - destruct (String.eqb k key); reflexivity.
  - destruct (String.eqb_spec k' k) as [-> | Hk'k]; simpl.
    + destruct (String.eqb k key); reflexivity.
    + destruct (String.eqb_spec k' key) as [-> | Hk'key].
      * destruct (String.eqb_spec k key) as [-> | _];
          [contradiction | reflexivity].
      * exact IH.
Qed.

Lemma get_count_new (key k : string) (result : Underscore.Counts) :
  Underscore.get_count key (result ++ [(k, 1)])%list
  = match Underscore.get_count key result with
    | Some n => Some n
    | None => if String.eqb k key then Some 1 else None
    end.
Proof.
  induction result as [| [k' n] rest IH]; simpl.
  - reflexivity.
  - destruct (String.eqb k' key); [reflexivity | exact IH].
Qed.

Lemma get_count_step (key k : string) (result : Underscore.Counts) :
  Underscore.get_count key (Underscore.count_step result k)
  = if String.eqb k key && negb (String.eqb k "__proto__")
    then Some (match Underscore.get_count key result with
               | Some n => n + 1
               | None => 1
               end)
    else Underscore.get_count key result.
Proof.
  unfold Underscore.count_step.
  destruct (String.eqb k "__proto__"); simpl.
  - rewrite andb_false_r. reflexivity.
  - rewrite andb_true_r.
    destruct (Underscore.get_count k result) as [m |] eqn:Ek.
    + rewrite get_count_increment.
      destruct (String.eqb_spec k key) as [-> | _]; [| reflexivity].
      rewrite Ek. reflexivity.
    + rewrite get_count_new.
      destruct (String.eqb_spec k key) as [-> | _].
      * rewrite Ek. reflexivity.
      * destruct (Underscore.get_count key result); reflexivity.
Qed.

(** What [_.countBy] holds under a key after a run over [keys]. *)
Lemma get_count_fold (key : string) :
  key <> "__proto__" ->
  forall keys result,
    Underscore.get_count key (fold_left Underscore.count_step keys result)
    = let occ :=
        Z.of_nat (List.length (filter (fun k => String.eqb k key) keys)) in
      match Underscore.get_count key result with
      | Some n => Some (n + occ)
      | None => if occ =? 0 then None else Some occ
      end.
Proof.
  intros Hkey. induction keys as [| k rest IH]; intros result; cbv zeta.
  - simpl. destruct (Underscore.get_count key result) as [n |];
      [f_equal; lia | reflexivity].
  - simpl fold_left. rewrite IH. cbv zeta. rewrite get_count_step.
    simpl filter.
    destruct (String.eqb_spec k key) as [-> | Hk]; simpl andb.
    + destruct (String.eqb_spec key "__proto__") as [E | _];
        [contradiction |].
      simpl negb. cbv iota. simpl List.length.
      destruct (Underscore.get_count key result) as [n |].
      * f_equal. lia.
      * destruct (Z.eqb_spec
                    (Z.of_nat (S (List.length
                       (filter (fun k => String.eqb k key) rest)))) 0);
          [lia | f_equal; lia].
    + reflexivity.
Qed.

Lemma get_count_fold_proto :
  forall keys result,
    Underscore.get_count "__proto__"
      (fold_left Underscore.count_step keys result)
    = Underscore.get_count "__proto__" result.
Proof.
  induction keys as [| k rest IH]; intros result; simpl.
  - reflexivity.
  - rewrite IH, get_count_step.
    destruct (String.eqb k "__proto__"); reflexivity.
Qed.

Lemma countBy_with_docs (rs : list Row) :
  Forall has_doc rs ->
  forall result,
    countBy_patient rs result
    = Some (fold_left Underscore.count_step (map row_key rs) result).
Proof.
  induction 1 as [| r rest Hr _ IH]; intros result; simpl.
  - reflexivity.
  - unfold has_doc in Hr.
    destruct (doc r) as [d |] eqn:E; [| contradiction].
    replace (row_key r) with (JS.to_string (doc_patient_id d))
      by (unfold row_key; rewrite E; reflexivity).
    apply IH.
Qed.

Lemma filter_map_length {A B : Type} (f : B -> bool) (g : A -> B)
    (l : list A) :
  List.length (filter f (map g l))
  = List.length (filter (fun x => f (g x)) l).
Proof.
  induction l as [| x l IH]; simpl; [reflexivity |].
  destruct (f (g x)); simpl; rewrite IH; reflexivity.
Qed.

(** What [injectVisits] calls back with when the visits arrive with
    their documents. *)
Lemma injectVisits_with_docs
    (db_fti : Db) (anc_forms : string -> option string)
    (now_ms host_offset : Z) (objects : list Entity) (w w' : World)
    (visits : Result) :
  getVisits db_fti anc_forms now_ms host_offset
    (Some (visit_options objects)) w
  = (w', Ok (Object visits)) ->
  Forall has_doc (rows visits) ->
  injectVisits db_fti anc_forms now_ms host_offset objects w
  = (w', Ok (map (fun object =>
                    {| object_before := object;
                       visits_now :=
                         lookup_count
                           (fold_left Underscore.count_step
                              (map row_key (rows visits)) [])
                           (patient_id object) |})
               objects)).
Proof.
  intros Hfetch Hdocs. unfold injectVisits, bind.
  fold (visit_options objects). rewrite Hfetch.
  cbv beta iota. cbn [fetched_rows].
  rewrite (countBy_with_docs _ Hdocs). reflexivity.
Qed.

(** X16. When the visits are fetched with their documents and no
    entity's patient identifier is the name of a member of
    [Object.prototype], [injectVisits] gives every entity the number of
    visit rows whose patient identifier is the same property name as its
    own (a missing identifier being the name [undefined]); the entities
    are passed on in their order. *)
Theorem injectVisits_counts
    (db_fti : Db) (anc_forms : string -> option string)
    (now_ms host_offset : Z) (objects : list Entity) (w w' : World)
    (visits : Result) :
  getVisits db_fti anc_forms now_ms host_offset
    (Some (visit_options objects)) w
  = (w', Ok (Object visits)) ->
  Forall has_doc (rows visits) ->
  Forall (fun o => inherited_key (JS.to_string (patient_id o)) = false)
    objects ->
  injectVisits db_fti anc_forms now_ms host_offset objects w
  = (w', Ok (map (fun o =>
                    {| object_before := o;
                       visits_now :=
                         Counted (count_rows (JS.to_string (patient_id o))
                                    (rows visits)) |})
               objects)).
Proof.
  intros Hfetch Hdocs Hkeys.
  rewrite (injectVisits_with_docs _ _ _ _ _ _ _ _ Hfetch Hdocs).
  do 2 f_equal. apply map_ext_in. intros o Ho. f_equal.
  rewrite Forall_forall in Hkeys. specialize (Hkeys o Ho).
  unfold lookup_count. cbv zeta.
  assert (Hproto : JS.to_string (patient_id o) <> "__proto__").
  { intros E. rewrite E in Hkeys. discriminate. }
  rewrite (get_count_fold _ Hproto). cbv zeta. simpl Underscore.get_count.
  unfold count_rows. rewrite filter_map_length.
  destruct (Z.eqb_spec
              (Z.of_nat (List.length
                 (filter (fun x => String.eqb (row_key x)
                                     (JS.to_string (patient_id o)))
                    (rows visits)))) 0) as [E | E].
  - rewrite Hkeys, E. reflexivity.
  - reflexivity.
Qed.

Lemma injectVisits_counts_witness :
  snd (injectVisits (scripted_db script_visits) sample_forms sample_now 0
         entities_abc initial_world)
  = Ok [{| object_before := entity_of "a"; visits_now := Counted 2 |};
        {| object_before := entity_of "b"; visits_now := Counted 0 |};
        {| object_before := entity_of "c"; visits_now := Counted 1 |}].
Proof.
  rewrite (injectVisits_counts (scripted_db script_visits) sample_forms
             sample_now 0 entities_abc initial_world
             (fst (injectVisits (scripted_db script_visits) sample_forms
                     sample_now 0 entities_abc initial_world))
             {| total_rows := JS.Int 3;
                rows := [row_of "V" "a"; row_of "V" "c"; row_of "V" "a"] |}).
  - reflexivity.
  - reflexivity.
  - repeat constructor; discriminate.
  - repeat constructor.
Defined.

(** X17. An entity whose patient identifier is the name of a member of
    [Object.prototype] and which has no visit row does not get the count
    [0]: its [visits] attribute receives the inherited member. *)
Theorem injectVisits_inherited_key
    (db_fti : Db) (anc_forms : string -> option string)
    (now_ms host_offset : Z) (objects : list Entity) (w w' : World)
    (visits : Result) (o : Entity) :
  getVisits db_fti anc_forms now_ms host_offset
    (Some (visit_options objects)) w
  = (w', Ok (Object visits)) ->
  Forall has_doc (rows visits) ->
  In o objects ->
  inherited_key (JS.to_string (patient_id o)) = true ->
  count_rows (JS.to_string (patient_id o)) (rows visits) = 0 ->
  exists visited,
    injectVisits db_fti anc_forms now_ms host_offset objects w
    = (w', Ok visited) /\
    In {| object_before := o;
          visits_now := Inherited (JS.to_string (patient_id o)) |}
      visited.
Proof.
  intros Hfetch Hdocs Ho Hkey Hnone.
  eexists. split;
    [exact (injectVisits_with_docs _ _ _ _ _ _ _ _ Hfetch Hdocs) |].
  apply in_map_iff. exists o. split; [| exact Ho]. f_equal.
  unfold lookup_count. cbv zeta.
  destruct (String.eqb_spec (JS.to_string (patient_id o)) "__proto__")
    as [E | E].
  - rewrite E in *. rewrite get_count_fold_proto. simpl. reflexivity.
  - rewrite (get_count_fold _ E). cbv zeta. simpl Underscore.get_count.
    unfold count_rows in Hnone. rewrite filter_map_length, Hnone.
    simpl. rewrite Hkey. reflexivity.
Qed.

Lemma injectVisits_inherited_key_witness :
  snd (injectVisits (scripted_db script_visits) sample_forms sample_now 0
         [entity_constructor] initial_world)
  = Ok [{| object_before := entity_constructor;
           visits_now := Inherited "constructor" |}].
Proof.
  destruct (injectVisits_inherited_key (scripted_db script_visits)
              sample_forms sample_now 0 [entity_constructor] initial_world
              (fst (injectVisits (scripted_db script_visits) sample_forms
                      sample_now 0 [entity_constructor] initial_world))
              {| total_rows := JS.Int 3;
                 rows := [row_of "V" "a"; row_of "V" "c"; row_of "V" "a"] |}
              entity_constructor)
    as (visited & Hrun & _).
  - reflexivity.
  - repeat constructor; discriminate.
  - left. reflexivity.
  - reflexivity.
  - reflexivity.
  - rewrite Hrun. pose proof (f_equal snd Hrun) as H.
    vm_compute in H. injection H as H. subst visited. reflexivity.
Defined.

(* ================================================================= *)
(** ** More on the pregnancy calculators *)

Lemma quot_weeks (k : Z) : Z.quot (k * Moment.ms_per_week) Moment.ms_per_week = k.
Proof. apply Z.quot_mul. unfold Moment.ms_per_week. lia. Qed.

(** X18. The two calculators agree: they flag the same records as
    approximate, and for a record that has the date its form calls for,
    [getWeeksPregnant] evaluated at the moment [getEDD] returns is 40. *)
Theorem calculators_agree
    (now_ms host_offset : Z) (d : Doc) :
  (form d = Some "R" -> reported_date d <> None) ->
  (form d <> Some "R" -> lmp_date d <> None) ->
  Weeks.approximate (getWeeksPregnant now_ms host_offset d)
  = EDD.approximate (getEDD now_ms host_offset d) /\
  Weeks.number
    (getWeeksPregnant
       (Moment.instant (EDD.date (getEDD now_ms host_offset d)))
       host_offset d)
  = 40.
Proof.
  intros Hr Hl. unfold getWeeksPregnant, getEDD.
  destruct (JS.strict_eq (form d) (Some "R")) eqn:E.
  - apply strict_eq_true in E. specialize (Hr E).
    destruct (reported_date d) as [t |]; [| contradiction].
    split; [reflexivity |].
    cbn [Weeks.number EDD.date]. unfold moment_of, moment_now.
    unfold Moment.diff_weeks, Moment.add_weeks, Moment.of_instant.
    cbn [Moment.instant].
    replace (t + 40 * Moment.ms_per_week - t)
      with (40 * Moment.ms_per_week) by lia.
    apply quot_weeks.
  - assert (Hform : form d <> Some "R").
    { intros H. apply strict_eq_true in H. congruence. }
    specialize (Hl Hform).
    destruct (lmp_date d) as [t |]; [| contradiction].
    split; [reflexivity |].
    cbn [Weeks.number EDD.date]. unfold moment_of, moment_now.
    unfold Moment.diff_weeks, Moment.add_weeks, Moment.of_instant.
    cbn [Moment.instant].
    replace (t + 42 * Moment.ms_per_week - t)
      with (42 * Moment.ms_per_week) by lia.
    rewrite quot_weeks. reflexivity.
Qed.

Lemma calculators_agree_witness :
  Weeks.number
    (getWeeksPregnant
       (Moment.instant
          (EDD.date (getEDD sample_now 0
                       (lmp_doc (Moment.utc_midnight 2020 1 1)))))
       0 (lmp_doc (Moment.utc_midnight 2020 1 1)))
  = 40.
Proof.
  refine (proj2 (calculators_agree sample_now 0
                   (lmp_doc (Moment.utc_midnight 2020 1 1)) _ _)).
  - discriminate.
  - discriminate.
Defined.



(** X20. The day [getEDD] returns is, on the calendar of the host's
    offset, 280 days after the reported date for a record of form ['R']
    and 294 days after the LMP date for any other record, whatever the
    time of day; a missing date stands for now. *)
Theorem getEDD_calendar_days
    (now_ms host_offset : Z) (d : Doc) :
  Moment.local_day (EDD.date (getEDD now_ms host_offset d))
  = if JS.strict_eq (form d) (Some "R")
    then Moment.local_day (moment_of now_ms host_offset (reported_date d))
         + 280
    else Moment.local_day (moment_of now_ms host_offset (lmp_date d))
         + 294.
Proof.
  unfold getEDD.
  destruct (JS.strict_eq (form d) (Some "R")); cbn [EDD.date];
    rewrite local_day_add_weeks; reflexivity.
Qed.



(* ================================================================= *)
(** ** The two queries behind the birth-eligible identifiers *)





(** X23. A form code missing from the configuration is not an error:
    [getDeliveries] without filters then makes its one engine call with
    the query [form:undefined], passing on the caller's [sort],
    [include_docs] and [limit]. *)
Theorem getDeliveries_missing_form_code
    (db_fti : Db) (anc_forms : string -> option string)
    (options : Options) (w : World) :
  anc_forms "delivery" = None ->
  patientIds options = None ->
  startDate options = None ->
  district options = None ->
  calls (fst (getDeliveries db_fti anc_forms options w))
  = (calls w
     ++ [{| index := "data_records";
            query := {| qo_q := Some "form:undefined";
                        qo_sort := sort options;
                        qo_include_docs := include_docs options;
                        qo_limit := limit options |} |}])%list.
Proof.
  intros Hcode Hids Hstart Hdistrict.
  unfold getDeliveries, getFormCode.
  rewrite Hcode, Hstart, Hdistrict. cbn [truthy JS.to_string].
  unfold ftiWithPatientIds. cbn [patientIds]. rewrite Hids.
  rewrite fti_world. reflexivity.
Qed.

Lemma getDeliveries_missing_form_code_witness :
  map (fun c => qo_q (query c))
    (calls (fst (getDeliveries (scripted_db script_abc) (fun _ => None)
                   no_options initial_world)))
  = [Some "form:undefined"].
Proof.
  rewrite (getDeliveries_missing_form_code (scripted_db script_abc)
             (fun _ => None) no_options initial_world
             eq_refl eq_refl eq_refl eq_refl).
  reflexivity.
Defined.
